(** * Solar charge switch: the control loop of [solar_charge_switch.py]

    A shallow embedding of the decision logic of the controller: threshold
    computation, the night window, the rolling sample window and one
    iteration of the [while _running] loop of [main], followed by the
    properties of the specification that concern them.

    Conventions of the embedding.
    - Python [float]s and JSON numbers are exact rationals ([Q]); [int]s are
      [Z].  [int(x)] truncates toward zero and [//] is floor division.
    - The collaborators ([time.time], [set_hue_state], [log_csv],
      [time.sleep]) act on an explicit [World]: the clock and the actuator are
      answer streams consumed call by call, and every call is recorded among
      the events a computation emits.
    - A Python exception is the [Err] value of a result.
    - The configuration functions ([load_config], [get_config],
      [save_config], [update_config]) are modelled in [ConfigStore] on a heap
      of dictionary objects, so that the sharing made by the shallow [copy]
      of [get_config] is part of the model; the readers of the two services
      ([get_hue_state], [get_solaredge_power]) are in [Api]. *)

From Stdlib Require Import ZArith QArith Qround Bool List String Ascii Lia Lqa.
Import ListNotations.

Local Open Scope Z_scope.

(* ================================================================== *)
(** * Configuration *)
(* ================================================================== *)

(** [config["electrical"]] *)
Record Electrical := mkElectrical {
  grid_voltage_v : Q;
  max_current_a : Q;
  safety_margin : Q;
  hysteresis : Q
}.

(** [config["sampling"]] *)
Record Sampling := mkSampling {
  window_s : Z;
  sample_interval_s : Z;
  require_stable_on_s : Q;
  require_stable_off_s : Q;
  min_on_time_s : Q
}.

(** [config["night_mode"]]; [start] and [end] are the strings of the file. *)
Record NightMode := mkNightMode {
  enabled : bool;
  night_start : string;
  night_end : string
}.

(** [config["control"]]; [manual_socket_state] is read with [.get], so it may
    be absent ([None]). *)
Record Control := mkControl {
  auto_mode : bool;
  manual_socket_state : option bool
}.

Record Config := mkConfig {
  electrical : Electrical;
  sampling : Sampling;
  night_mode : NightMode;
  control : Control
}.

(* ================================================================== *)
(** * Numbers *)
(* ================================================================== *)

(** Python's [int(x)] on a float: truncation toward zero. *)
Definition py_int (x : Q) : Z := Z.quot (Qnum x) (Z.pos (Qden x)).

(** Comparisons of floats, as booleans. *)
Definition Qge_bool (x y : Q) : bool := Qle_bool y x.

(** Truth value of an optional float: [None] and [0.0] are falsy. *)
Definition truthy (x : option Q) : bool :=
  match x with
  | None => false
  | Some t => negb (Qeq_bool t 0)
  end.

(* ================================================================== *)
(** * Thresholds *)
(* ================================================================== *)

(** [calculate_thresholds]: the config it reads is its argument. *)
Definition calculate_thresholds (config : Config) : Z * Z :=
  let elec := electrical config in
  let on_threshold :=
    py_int (grid_voltage_v elec * max_current_a elec * safety_margin elec) in
  let off_threshold :=
    py_int (inject_Z on_threshold * (1 - hysteresis elec)) in
  (on_threshold, off_threshold).

(* ================================================================== *)
(** * Exceptions *)
(* ================================================================== *)

Inductive exn :=
  ValueError | TypeError | OverflowError | ZeroDivisionError | ImportError.

Inductive result (A : Type) :=
| Ok (a : A)
| Err (e : exn).
Arguments Ok {A} a.
Arguments Err {A} e.

Definition rbind {A B} (r : result A) (k : A -> result B) : result B :=
  match r with
  | Ok a => k a
  | Err e => Err e
  end.

Notation "'let*' x ':=' e 'in' k" := (rbind e (fun x => k))
  (at level 10, x name, e at level 100, k at level 200).

Fixpoint rmap {A B} (f : A -> result B) (l : list A) : result (list B) :=
  match l with
  | [] => Ok []
  | a :: l' => let* b := f a in let* bs := rmap f l' in Ok (b :: bs)
  end.

(* ================================================================== *)
(** * Times of day *)
(* ================================================================== *)

(** A [datetime.time] (naive): hour, minute, second, microsecond. *)
Record dtime := mkTime {
  hour : Z;
  minute : Z;
  second : Z;
  microsecond : Z
}.

Definition valid_time (t : dtime) : bool :=
  (0 <=? hour t) && (hour t <? 24) &&
  (0 <=? minute t) && (minute t <? 60) &&
  (0 <=? second t) && (second t <? 60) &&
  (0 <=? microsecond t) && (microsecond t <? 1000000).

(** Comparison of two times is the comparison of the tuples
    (hour, minute, second, microsecond). *)
Definition time_cmp (a b : dtime) : comparison :=
  match hour a ?= hour b with
  | Eq =>
      match minute a ?= minute b with
      | Eq =>
          match second a ?= second b with
          | Eq => microsecond a ?= microsecond b
          | c => c
          end
      | c => c
      end
  | c => c
  end.

Definition time_ltb (a b : dtime) : bool :=
  match time_cmp a b with Lt => true | _ => false end.

Definition time_leb (a b : dtime) : bool :=
  match time_cmp a b with Gt => false | _ => true end.

(** Microseconds elapsed since midnight. *)
Definition since_midnight (t : dtime) : Z :=
  ((hour t * 60 + minute t) * 60 + second t) * 1000000 + microsecond t.

(** ** Reading a time from the configuration

    The source builds a time with [dtime] applied to the integers obtained
    by [map(int, ...)] over the colon-separated pieces of the string. *)

Definition colon : ascii := ":"%char.
Definition underscore : ascii := "_"%char.

(** [str.split] on the separator colon. *)
Fixpoint split_colon (s : string) : list string :=
  match s with
  | EmptyString => [EmptyString]
  | String c r =>
      if Ascii.eqb c colon then EmptyString :: split_colon r
      else match split_colon r with
           | h :: t => String c h :: t
           | [] => [String c EmptyString]
           end
  end.

(** White space that [int] strips (ASCII). *)
Definition is_space (c : ascii) : bool :=
  let n := Z.of_N (N_of_ascii c) in
  ((9 <=? n) && (n <=? 13)) || ((28 <=? n) && (n <=? 32)).

Fixpoint lstrip (l : list ascii) : list ascii :=
  match l with
  | c :: r => if is_space c then lstrip r else l
  | [] => []
  end.

Definition strip (l : list ascii) : list ascii :=
  rev (lstrip (rev (lstrip l))).

Definition digit_of (c : ascii) : option Z :=
  let n := Z.of_N (N_of_ascii c) in
  if (48 <=? n) && (n <=? 57) then Some (n - 48) else None.

(** Decimal digits, with single underscores allowed between two digits. *)
Fixpoint parse_digits (acc : Z) (after_digit : bool) (l : list ascii)
  : option Z :=
  match l with
  | [] => if after_digit then Some acc else None
  | c :: r =>
      match digit_of c with
      | Some d => parse_digits (10 * acc + d) true r
      | None =>
          if Ascii.eqb c underscore && after_digit
          then parse_digits acc false r
          else None
      end
  end.

(** [int(s)] on an ASCII string: optional white space around an optional sign
    and decimal digits; anything else is a [ValueError]. *)
Definition int_of_string (s : string) : result Z :=
  let body := strip (list_ascii_of_string s) in
  let signed :=
    match body with
    | c :: r =>
        if Ascii.eqb c "-"%char then (true, r)
        else if Ascii.eqb c "+"%char then (false, r)
        else (false, body)
    | [] => (false, body)
    end in
  match parse_digits 0 false (snd signed) with
  | Some n => Ok (if fst signed then - n else n)
  | None => Err ValueError
  end.

Definition fits_c_int (n : Z) : bool :=
  (- 2 ^ 31 <=? n) && (n <? 2 ^ 31).

(** The constructor [datetime.time(hour=0, minute=0, second=0,
    microsecond=0, tzinfo=None)] applied to positional integers. *)
Definition check_time_fields (h m s us : Z) : result dtime :=
  if negb (fits_c_int h && fits_c_int m && fits_c_int s && fits_c_int us)
  then Err OverflowError
  else if valid_time (mkTime h m s us) then Ok (mkTime h m s us)
  else Err ValueError.

Definition dtime_of (args : list Z) : result dtime :=
  match args with
  | [] => check_time_fields 0 0 0 0
  | [h] => check_time_fields h 0 0 0
  | [h; m] => check_time_fields h m 0 0
  | [h; m; s] => check_time_fields h m s 0
  | [h; m; s; us] => check_time_fields h m s us
  | [h; m; s; us; _] =>
      (* the fifth positional argument is [tzinfo], and an [int] is none *)
      let* _ := check_time_fields h m s us in Err TypeError
  | _ => Err TypeError
  end.

Definition parse_time (s : string) : result dtime :=
  let* fields := rmap int_of_string (split_colon s) in
  dtime_of fields.

(** [is_night(now)]; [now] stands for [now.time()]. *)
Definition is_night (config : Config) (now : dtime) : result bool :=
  let night_config := night_mode config in
  if negb (enabled night_config) then Ok false
  else
    let* start_time := parse_time (night_start night_config) in
    let* end_time := parse_time (night_end night_config) in
    if time_ltb start_time end_time
    then Ok (time_leb start_time now && time_ltb now end_time)
    else Ok (time_leb start_time now || time_ltb now end_time).

(* ================================================================== *)
(** * The rolling window *)
(* ================================================================== *)

(** [collections.deque(maxlen=...)] of power samples, oldest first. *)
Record deque := mkDeque {
  items : list Q;
  maxlen : Z
}.

Definition len (d : deque) : Z := Z.of_nat (List.length (items d)).

(** [deque.append]: the sample goes to the right end and, when the bound is
    exceeded, one sample leaves at the left end. *)
Definition deque_append (d : deque) (x : Q) : deque :=
  let l := items d ++ [x] in
  mkDeque (if maxlen d <? Z.of_nat (List.length l) then tl l else l) (maxlen d).

Definition Qsum (l : list Q) : Q := fold_right Qplus 0%Q l.

(** [statistics.mean] of a non-empty sequence. *)
Definition mean (l : list Q) : Q := (Qsum l / inject_Z (Z.of_nat (List.length l)))%Q.

Fixpoint insert_sorted (x : Q) (l : list Q) : list Q :=
  match l with
  | [] => [x]
  | y :: r => if Qle_bool x y then x :: l else y :: insert_sorted x r
  end.

Definition sorted (l : list Q) : list Q := fold_right insert_sorted [] l.

(** [statistics.median] of a non-empty sequence: the middle value of the
    sorted data, or the average of the two middle values. *)
Definition median (l : list Q) : Q :=
  let data := sorted l in
  let n := List.length data in
  if Nat.eqb (n mod 2) 1 then nth (n / 2) data 0%Q
  else
    let i := (n / 2)%nat in
    ((nth (i - 1) data 0 + nth i data 0) / 2)%Q.

(* ================================================================== *)
(** * Collaborators *)
(* ================================================================== *)

Inductive Event :=
| HuePut (state : bool) (ok : bool)
    (** [set_hue_state(hue, state)] and what it returned *)
| CsvRow (ts : dtime) (power avg med : Q) (state auto : bool)
    (** [log_csv(...)] *)
| Sleep (seconds : Z).
    (** [time.sleep(...)] *)

(** The outside world of the loop: what [time.time()] and [set_hue_state]
    answer, call after call, and how many calls were made so far. *)
Record World := mkWorld {
  clock : nat -> Q;
  clock_calls : nat;
  actuator : nat -> bool;
  actuator_calls : nat
}.

Record Outcome (A : Type) := mkOutcome {
  value : result A;
  world : World;
  emitted : list Event
}.
Arguments mkOutcome {A} value world emitted.
Arguments value {A} o.
Arguments world {A} o.
Arguments emitted {A} o.

Definition M (A : Type) : Type := World -> Outcome A.

Definition ret {A} (a : A) : M A := fun w => mkOutcome (Ok a) w [].

Definition raise {A} (e : exn) : M A := fun w => mkOutcome (Err e) w [].

Definition bind {A B} (m : M A) (k : A -> M B) : M B := fun w =>
  match m w with
  | mkOutcome (Ok a) w1 evs =>
      match k a w1 with
      | mkOutcome v w2 evs' => mkOutcome v w2 (evs ++ evs')
      end
  | mkOutcome (Err e) w1 evs => mkOutcome (Err e) w1 evs
  end.

Notation "x <- m ;; k" := (bind m (fun x => k))
  (at level 61, m at next level, right associativity).
Notation "m ;; k" := (bind m (fun _ => k))
  (at level 61, right associativity).

Definition lift {A} (r : result A) : M A :=
  match r with
  | Ok a => ret a
  | Err e => raise e
  end.

(** [time.time()] *)
Definition time_time : M Q := fun w =>
  mkOutcome (Ok (clock w (clock_calls w)))
            (mkWorld (clock w) (S (clock_calls w)) (actuator w) (actuator_calls w))
            [].

(** [set_hue_state(hue, state)]: [True] when the request went through. *)
Definition set_hue_state (state : bool) : M bool := fun w =>
  let ok := actuator w (actuator_calls w) in
  mkOutcome (Ok ok)
            (mkWorld (clock w) (clock_calls w) (actuator w) (S (actuator_calls w)))
            [HuePut state ok].

(** [log_csv(ts, power, avg, med, state, auto_mode)]; failures stay inside. *)
Definition log_csv (ts : dtime) (power avg med : Q) (state auto : bool)
  : M unit := fun w => mkOutcome (Ok tt) w [CsvRow ts power avg med state auto].

(** [time.sleep(seconds)]; a negative length is a [ValueError]. *)
Definition sleep (seconds : Z) : M unit := fun w =>
  if seconds <? 0 then mkOutcome (Err ValueError) w []
  else mkOutcome (Ok tt) w [Sleep seconds].

(* ================================================================== *)
(** * The control loop *)
(* ================================================================== *)

(** The local variables of [main] that live across iterations. *)
Record LoopState := mkLoopState {
  power_buffer : deque;
  stable_on_since : option Q;
  stable_off_since : option Q;
  last_switch_time : option Q;
  socket_on : bool
}.

Definition set_power_buffer (b : deque) (st : LoopState) : LoopState :=
  mkLoopState b (stable_on_since st) (stable_off_since st)
              (last_switch_time st) (socket_on st).

Definition set_stable_on_since (v : option Q) (st : LoopState) : LoopState :=
  mkLoopState (power_buffer st) v (stable_off_since st)
              (last_switch_time st) (socket_on st).

Definition set_stable_off_since (v : option Q) (st : LoopState) : LoopState :=
  mkLoopState (power_buffer st) (stable_on_since st) v
              (last_switch_time st) (socket_on st).

(** [socket_on = state; last_switch_time = t] *)
Definition switched (state : bool) (t : Q) (st : LoopState) : LoopState :=
  mkLoopState (power_buffer st) (stable_on_since st) (stable_off_since st)
              (Some t) state.

(** What one iteration reads from outside: [datetime.now()] (its time of
    day), the configuration snapshot of [get_config()], and what
    [get_solaredge_power] would return ([None] after a failed read). *)
Record CycleInput := mkCycleInput {
  ci_now : dtime;
  ci_config : Config;
  ci_power : option Q
}.

(** [x or time.time()] for an optional float [x]. *)
Definition or_time_time (x : option Q) : M Q :=
  match x with
  | Some t => if truthy x then ret t else time_time
  | None => time_time
  end.

(** [if set_hue_state(hue, state): socket_on = state;
     last_switch_time = time.time()] *)
Definition switch_to (state : bool) (st : LoopState) : M LoopState :=
  ok <- set_hue_state state ;;
  if ok then t <- time_time ;; ret (switched state t st)
  else ret st.

(** Manual control override, [manual_state] being set. *)
Definition manual_control (config : Config) (manual_state : bool)
  (st : LoopState) : M LoopState :=
  st' <- (if negb (Bool.eqb (socket_on st) manual_state)
          then switch_to manual_state st
          else ret st) ;;
  sleep (sample_interval_s (sampling config)) ;;
  ret st'.

(** Night mode handling, once [is_night(now)] answered [True]. *)
Definition night_mode_handling (config : Config) (st : LoopState)
  : M LoopState :=
  st' <- (if socket_on st then switch_to false st else ret st) ;;
  sleep (sample_interval_s (sampling config)) ;;
  ret st'.

(** Automatic control, socket off. *)
Definition automatic_on (config : Config) (avg_w : Q) (power_threshold_on : Z)
  (st : LoopState) : M LoopState :=
  if Qge_bool avg_w (inject_Z power_threshold_on) then
    since <- or_time_time (stable_on_since st) ;;
    let st := set_stable_on_since (Some since) st in
    t <- time_time ;;
    if Qge_bool (t - since) (require_stable_on_s (sampling config)) then
      st <- switch_to true st ;;
      ret (set_stable_on_since None st)
    else ret st
  else ret (set_stable_on_since None st).

(** Automatic control, socket on. *)
Definition automatic_off (config : Config) (avg_w : Q) (power_threshold_off : Z)
  (st : LoopState) : M LoopState :=
  can_turn_off <-
    match last_switch_time st with
    | None => ret true
    | Some last =>
        t <- time_time ;;
        ret (Qge_bool (t - last) (min_on_time_s (sampling config)))
    end ;;
  if Qle_bool avg_w (inject_Z power_threshold_off) && can_turn_off then
    since <- or_time_time (stable_off_since st) ;;
    let st := set_stable_off_since (Some since) st in
    t <- time_time ;;
    if Qge_bool (t - since) (require_stable_off_s (sampling config)) then
      st <- switch_to false st ;;
      ret (set_stable_off_since None st)
    else ret st
  else ret (set_stable_off_since None st).

(** [mean(power_buffer) if len(power_buffer) > 0 else power] *)
Definition avg_of (buffer : deque) (power : Q) : Q :=
  if 0 <? len buffer then mean (items buffer) else power.

(** [median(power_buffer) if len(power_buffer) > 0 else power] *)
Definition med_of (buffer : deque) (power : Q) : Q :=
  if 0 <? len buffer then median (items buffer) else power.

(** One iteration of [while _running]. *)
Definition cycle (inp : CycleInput) (st : LoopState) : M LoopState :=
  let now := ci_now inp in
  let config := ci_config inp in
  let power_threshold_on := fst (calculate_thresholds config) in
  let power_threshold_off := snd (calculate_thresholds config) in
  let auto := auto_mode (control config) in
  let manual_state := manual_socket_state (control config) in
  let interval := sample_interval_s (sampling config) in
  match (if auto then None else manual_state) with
  | Some manual_state => manual_control config manual_state st
  | None =>
      match ci_power inp with
      | None => sleep interval ;; ret st
      | Some power =>
          let buffer := deque_append (power_buffer st) power in
          let st := set_power_buffer buffer st in
          let avg_w := avg_of buffer power in
          let med_w := med_of buffer power in
          log_csv now power avg_w med_w (socket_on st) auto ;;
          night <- (if auto then lift (is_night config now) else ret false) ;;
          if auto && night then night_mode_handling config st
          else if negb auto then sleep interval ;; ret st
          else
            st' <- (if negb (socket_on st)
                    then automatic_on config avg_w power_threshold_on st
                    else automatic_off config avg_w power_threshold_off st) ;;
            sleep interval ;;
            ret st'
      end
  end.

(** The iterations of the loop, one per input, until an exception. *)
Fixpoint run (inputs : list CycleInput) (st : LoopState) : M LoopState :=
  match inputs with
  | [] => ret st
  | inp :: rest => st' <- cycle inp st ;; run rest st'
  end.

(** [main] before the loop: the window is sized once, from the configuration
    read at start; [hue_state] is what [get_hue_state] returned. *)
Definition startup (config : Config) (hue_state : option bool)
  : result LoopState :=
  let window := window_s (sampling config) in
  let interval := sample_interval_s (sampling config) in
  if interval =? 0 then Err ZeroDivisionError
  else
    let buffer_size := window / interval in
    if buffer_size <? 0 then Err ValueError
    else
      Ok (mkLoopState (mkDeque [] buffer_size) None None None
            (match hue_state with Some b => b | None => false end)).

(** The iteration reaches the automatic control logic: automatic mode, a
    power sample, and a night check that answered [False]. *)
Definition automatic_cycle (inp : CycleInput) : Prop :=
  auto_mode (control (ci_config inp)) = true
  /\ is_night (ci_config inp) (ci_now inp) = Ok false
  /\ ci_power inp <> None.

(** The iteration runs in automatic mode outside the night window (and its
    final [time.sleep] is given a valid length). *)
Definition automatic_daytime (inp : CycleInput) : Prop :=
  0 <= sample_interval_s (sampling (ci_config inp))
  /\ auto_mode (control (ci_config inp)) = true
  /\ is_night (ci_config inp) (ci_now inp) = Ok false.

(** What opening and parsing [config.json] gives. *)
Inductive ConfigFile :=
| FileNotFound
| InvalidJson
| Unreadable
| Loaded (config : Config).

(** [load_config]: the parsed file as it is, or [sys.exit(1)]. *)
Definition load_config (file : ConfigFile) : Config + Z :=
  match file with
  | Loaded config => inl config
  | FileNotFound | InvalidJson | Unreadable => inr 1
  end.

(** How [main] reaches its loop. *)
Inductive Started :=
| Exited (code : Z)
| Crashed (e : exn)
| Running (st : LoopState).

Definition main_startup (file : ConfigFile) (hue_state : option bool)
  : Started :=
  match load_config file with
  | inr code => Exited code
  | inl config =>
      match startup config hue_state with
      | Ok st => Running st
      | Err e => Crashed e
      end
  end.

(* ================================================================== *)
(** * The modules and their top-level names *)
(* ================================================================== *)

Local Open Scope string_scope.

(** The names bound at the top level of [solar_charge_switch.py] once the
    module has been executed: its imports, its globals and its functions, in
    source order. *)
Definition solar_charge_switch_names : list string :=
  [ "time"; "json"; "csv"; "logging"; "signal"; "sys"; "os"; "threading";
    "deque"; "mean"; "median"; "datetime"; "dtime";
    "Optional"; "Tuple"; "Dict"; "Any"; "Path"; "requests";
    "CONFIG_FILE"; "_config"; "_config_lock"; "_running";
    "load_config"; "get_config"; "save_config"; "update_config";
    "setup_logging"; "is_night"; "hue_headers"; "calculate_thresholds";
    "get_solaredge_power"; "get_hue_state"; "set_hue_state";
    "init_csv"; "log_csv"; "signal_handler"; "main" ].

(** The top-level statements of a module, as far as names and routes go. *)
Inductive Statement :=
| Import (module : string)
| FromImport (module : string) (names : list string)
| Assign (name : string)
| Def (name : string)
| Route (path : string) (method : string) (handler : string).

(** [web_app.py], top to bottom, up to its [__main__] guard. *)
Definition web_app : list Statement :=
  [ Import "json"; Import "csv"; Import "os";
    FromImport "datetime" ["datetime"];
    FromImport "flask"
      ["Flask"; "render_template"; "jsonify"; "request"; "send_from_directory"];
    FromImport "pathlib" ["Path"];
    FromImport "solar_charge_switch"
      ["get_config"; "save_config"; "update_config"; "load_config";
       "get_solaredge_power"; "get_hue_state"; "set_hue_state";
       "calculate_thresholds"; "cleanup_old_logs"];
    Import "requests";
    Assign "app";
    Def "get_log_entries";
    Route "/" "GET" "index";
    Route "/api/status" "GET" "api_status";
    Route "/api/config" "GET" "api_get_config";
    Route "/api/config" "POST" "api_update_config";
    Route "/api/socket" "POST" "api_control_socket";
    Route "/api/auto_mode" "POST" "api_auto_mode";
    Route "/api/logs" "GET" "api_logs";
    Route "/api/logs/cleanup" "POST" "api_cleanup_logs" ].

Definition mem (name : string) (names : list string) : bool :=
  existsb (String.eqb name) names.

(** The names a [from ... import] asks for and does not find.  Only the
    module of this repository is looked into; the libraries provide what is
    asked of them. *)
Definition missing_names (module : string) (names : list string)
  : list string :=
  if String.eqb module "solar_charge_switch"
  then filter (fun n => negb (mem n solar_charge_switch_names)) names
  else [].

(** What executing a module leaves: the names bound and the routes
    registered so far, and the exception that stopped it, if any. *)
Record Imported := mkImported {
  bound : list string;
  routes : list (string * string * string);
  failure : option exn
}.

Fixpoint exec_module (stmts : list Statement) (names : list string)
  (registered : list (string * string * string)) : Imported :=
  match stmts with
  | [] => mkImported names registered None
  | Import m :: rest => exec_module rest (names ++ [m]) registered
  | FromImport m ns :: rest =>
      match missing_names m ns with
      | [] => exec_module rest (names ++ ns) registered
      | _ :: _ => mkImported names registered (Some ImportError)
      end
  | Assign n :: rest => exec_module rest (names ++ [n]) registered
  | Def n :: rest => exec_module rest (names ++ [n]) registered
  | Route path method handler :: rest =>
      exec_module rest (names ++ [handler])
        (registered ++ [(path, method, handler)])
  end.

Definition import_web_app : Imported := exec_module web_app [] [].

Local Close Scope string_scope.

(** The timers that are set hold a value other than 0.0. *)
Definition timers_nonzero (st : LoopState) : Prop :=
  (forall t, stable_on_since st = Some t -> ~ (t == 0)%Q)
  /\ (forall t, stable_off_since st = Some t -> ~ (t == 0)%Q).

(** The sample an iteration appends to the window, if any: none under
    manual override and none after a failed read. *)
Definition appended (inp : CycleInput) : option Q :=
  let control := control (ci_config inp) in
  match (if auto_mode control then None else manual_socket_state control) with
  | Some _ => None
  | None => ci_power inp
  end.

Definition samples_of (inputs : list CycleInput) : list Q :=
  flat_map (fun inp => match appended inp with Some p => [p] | None => [] end)
    inputs.

(** Successive [append]s, oldest sample first. *)
Definition feed (samples : list Q) (d : deque) : deque :=
  fold_left deque_append samples d.

(** Nothing in the iteration raises: the sleep length is valid and the night
    window can be read. *)
Definition cycle_defined (inp : CycleInput) : Prop :=
  0 <= sample_interval_s (sampling (ci_config inp))
  /\ exists night, is_night (ci_config inp) (ci_now inp) = Ok night.

(** The switch requests among the events of an iteration. *)
Definition requests (evs : list Event) : list bool :=
  flat_map (fun e => match e with HuePut s _ => [s] | _ => [] end) evs.

(** The iteration runs under manual override, asking for [state]. *)
Definition manual_override (state : bool) (inp : CycleInput) : Prop :=
  0 <= sample_interval_s (sampling (ci_config inp))
  /\ auto_mode (control (ci_config inp)) = false
  /\ manual_socket_state (control (ci_config inp)) = Some state.

(** The iteration is not under manual override and its read of the power
    fails. *)
Definition failed_read (inp : CycleInput) : Prop :=
  0 <= sample_interval_s (sampling (ci_config inp))
  /\ (auto_mode (control (ci_config inp)) = true
      \/ manual_socket_state (control (ci_config inp)) = None)
  /\ ci_power inp = None.

(** The events of an optional log row and of an optional request. *)
Definition optional_event (e : option Event) : list Event :=
  match e with Some e => [e] | None => [] end.

Definition is_row (e : Event) : bool :=
  match e with CsvRow _ _ _ _ _ _ => true | _ => false end.

Definition is_put (e : Event) : bool :=
  match e with HuePut _ _ => true | _ => false end.

(** The iteration evaluates nothing: its read fails in automatic mode, or
    automatic mode is off with no manual state or with a manual state equal
    to [socket]. *)
Definition passive (socket : bool) (inp : CycleInput) : Prop :=
  0 <= sample_interval_s (sampling (ci_config inp))
  /\ if auto_mode (control (ci_config inp))
     then ci_power inp = None
     else manual_socket_state (control (ci_config inp)) = None
          \/ manual_socket_state (control (ci_config inp)) = Some socket.

(** The state asked for by the last request that succeeded, if any. *)
Definition switched_to (evs : list Event) : option bool :=
  fold_left
    (fun acc e => match e with HuePut state true => Some state | _ => acc end)
    evs None.

(** The events of iterations that only sleep. *)
Definition sleeps (inputs : list CycleInput) : list Event :=
  map (fun inp => Sleep (sample_interval_s (sampling (ci_config inp)))) inputs.

(** The configuration with the two ends of the night window exchanged. *)
Definition swap_window (config : Config) : Config :=
  mkConfig (electrical config) (sampling config)
    (mkNightMode (enabled (night_mode config))
       (night_end (night_mode config)) (night_start (night_mode config)))
    (control config).

(* ================================================================== *)
(** * The configuration store *)
(* ================================================================== *)

(** [load_config], [get_config], [save_config] and [update_config] work on
    the dictionaries that [json.load] builds.  Dictionaries are objects: a
    value refers to one by its address in a heap, so that two values can
    share one, as the shallow [copy] of [get_config] makes them do. *)
Set Warnings "-register-all".

Module ConfigStore.

(** The text of a JSON file. *)
Inductive json :=
| JNull
| JBool (b : bool)
| JNum (q : Q)
| JStr (s : string)
| JList (items : list json)
| JObj (fields : list (string * json)).

(** A Python value; [VDict r] is the dictionary at address [r]. *)
Inductive pyval :=
| VNone
| VBool (b : bool)
| VNum (q : Q)
| VStr (s : string)
| VList (items : list pyval)
| VDict (ref : nat).

(** A dictionary keeps its keys in insertion order. *)
Definition dict := list (string * pyval).

Definition heap := list dict.

Inductive pyexn := AttributeError | TypeError.

(** [d.get(k)] / [k in d] *)
Fixpoint dict_get (d : dict) (k : string) : option pyval :=
  match d with
  | [] => None
  | (k', v) :: rest => if String.eqb k k' then Some v else dict_get rest k
  end.

(** [d[k] = v]: an existing key keeps its place, a new one goes last. *)
Fixpoint dict_set (d : dict) (k : string) (v : pyval) : dict :=
  match d with
  | [] => [(k, v)]
  | (k', v') :: rest =>
      if String.eqb k k' then (k', v) :: rest
      else (k', v') :: dict_set rest k v
  end.

Definition heap_get (h : heap) (r : nat) : dict := nth r h [].

Fixpoint heap_set (h : heap) (r : nat) (d : dict) : heap :=
  match h, r with
  | [], _ => []
  | _ :: rest, O => d :: rest
  | d' :: rest, S r' => d' :: heap_set rest r' d
  end.

(** A new dictionary object. *)
Definition alloc (h : heap) (d : dict) : nat * heap :=
  (List.length h, h ++ [d]).

(** [json.load]: every object of the text becomes a new dictionary; a key
    that comes twice keeps its first place and its last value. *)
Fixpoint thaw (j : json) (h : heap) {struct j} : pyval * heap :=
  match j with
  | JNull => (VNone, h)
  | JBool b => (VBool b, h)
  | JNum q => (VNum q, h)
  | JStr s => (VStr s, h)
  | JList items =>
      let fix thaw_items (l : list json) (h : heap) : list pyval * heap :=
        match l with
        | [] => ([], h)
        | x :: l' =>
            let (v, h1) := thaw x h in
            let (vs, h2) := thaw_items l' h1 in
            (v :: vs, h2)
        end in
      let (vs, h') := thaw_items items h in
      (VList vs, h')
  | JObj fields =>
      let fix thaw_fields (l : list (string * json)) (d : dict) (h : heap)
        : dict * heap :=
        match l with
        | [] => (d, h)
        | (k, x) :: l' =>
            let (v, h1) := thaw x h in
            thaw_fields l' (dict_set d k v) h1
        end in
      let (d, h1) := thaw_fields fields [] h in
      let (r, h2) := alloc h1 d in
      (VDict r, h2)
  end.

(** [json.dump]: the text of a value, or nothing when a dictionary contains
    itself.  No path without a repetition passes through more dictionaries
    than the heap holds, which bounds the depth. *)
Fixpoint freeze_depth (depth : nat) (h : heap) (v : pyval) {struct depth}
  : option json :=
  let fix freeze_value (v : pyval) : option json :=
    match v with
    | VNone => Some JNull
    | VBool b => Some (JBool b)
    | VNum q => Some (JNum q)
    | VStr s => Some (JStr s)
    | VList items =>
        let fix freeze_items (l : list pyval) : option (list json) :=
          match l with
          | [] => Some []
          | x :: l' =>
              match freeze_value x, freeze_items l' with
              | Some j, Some js => Some (j :: js)
              | _, _ => None
              end
          end in
        option_map JList (freeze_items items)
    | VDict r =>
        match depth with
        | O => None
        | S depth' =>
            let fix freeze_fields (d : dict) : option (list (string * json)) :=
              match d with
              | [] => Some []
              | (k, x) :: d' =>
                  match freeze_depth depth' h x, freeze_fields d' with
                  | Some j, Some js => Some ((k, j) :: js)
                  | _, _ => None
                  end
              end in
            option_map JObj (freeze_fields (heap_get h r))
        end
    end in
  freeze_value v.

Definition freeze (h : heap) (v : pyval) : option json :=
  freeze_depth (S (List.length h)) h v.

(** What is on disk under a name. *)
Inductive file :=
| Absent
| Unreadable
| Garbled
| Text (j : json).

(** The global [_config] ([live], [VNone] until loaded), the heap of
    dictionaries, [config.json] and [config.json.backup], and whether each
    of the two files can be opened for writing. *)
Record store := mkStore {
  heap_of : heap;
  live : pyval;
  config_file : file;
  backup_file : file;
  config_writable : bool;
  backup_writable : bool
}.

Definition with_heap (h : heap) (s : store) : store :=
  mkStore h (live s) (config_file s) (backup_file s)
    (config_writable s) (backup_writable s).

Definition with_live (v : pyval) (s : store) : store :=
  mkStore (heap_of s) v (config_file s) (backup_file s)
    (config_writable s) (backup_writable s).

Definition with_config_file (f : file) (s : store) : store :=
  mkStore (heap_of s) (live s) f (backup_file s)
    (config_writable s) (backup_writable s).

Definition with_backup_file (f : file) (s : store) : store :=
  mkStore (heap_of s) (live s) (config_file s) f
    (config_writable s) (backup_writable s).

(** How a call ends: it returns, raises, or leaves through [sys.exit]. *)
Inductive outcome (A : Type) :=
| Return (a : A) (s : store)
| Raise (e : pyexn) (s : store)
| Exit (code : Z) (s : store).
Arguments Return {A} a s.
Arguments Raise {A} e s.
Arguments Exit {A} code s.

(** [load_config] *)
Definition load_config (s : store) : outcome pyval :=
  match config_file s with
  | Text j =>
      let (v, h) := thaw j (heap_of s) in
      Return v (with_live v (with_heap h s))
  | Absent | Unreadable | Garbled => Exit 1 s
  end.

(** [x.copy()] *)
Definition copy (v : pyval) (s : store) : outcome pyval :=
  match v with
  | VDict r =>
      let (r', h) := alloc (heap_of s) (heap_get (heap_of s) r) in
      Return (VDict r') (with_heap h s)
  | VList items => Return (VList items) s
  | VNone | VBool _ | VNum _ | VStr _ => Raise AttributeError s
  end.

(** [get_config] *)
Definition get_config (s : store) : outcome pyval :=
  match live s with
  | VNone =>
      match load_config s with
      | Return v s1 => copy v (with_live v s1)
      | Raise e s1 => Raise e s1
      | Exit code s1 => Exit code s1
      end
  | v => copy v s
  end.

(** [save_config] *)
Definition save_config (new_config : pyval) (s : store) : outcome bool :=
  let backed_up :=
    match config_file s with
    | Absent => Some s
    | Unreadable => None
    | Garbled | Text _ =>
        if backup_writable s then Some (with_backup_file (config_file s) s)
        else None
    end in
  match backed_up with
  | None => Return false s
  | Some s1 =>
      if config_writable s1 then
        match freeze (heap_of s1) new_config with
        | Some j => Return true (with_live new_config (with_config_file (Text j) s1))
        | None => Return false (with_config_file Garbled s1)
        end
      else Return false s1
  end.

(** [str.split] on a one-character separator. *)
Fixpoint split_on (sep : ascii) (s : string) : list string :=
  match s with
  | EmptyString => [EmptyString]
  | String c r =>
      if Ascii.eqb c sep then EmptyString :: split_on sep r
      else match split_on sep r with
           | h :: t => String c h :: t
           | [] => [String c EmptyString]
           end
  end.

(** [d[k] = v] on any value: only a dictionary takes it. *)
Definition set_item (d : pyval) (k : string) (v : pyval) (h : heap)
  : pyexn + heap :=
  match d with
  | VDict r => inr (heap_set h r (dict_set (heap_get h r) k v))
  | _ => inl TypeError
  end.

(** The inner loop of [update_config]:
    [for k in keys[:-1]: if k not in d: d[k] = {}; d = d[k]]. *)
Fixpoint descend (ks : list string) (d : pyval) (h : heap)
  : pyexn + (pyval * heap) :=
  match ks with
  | [] => inr (d, h)
  | k :: ks' =>
      match d with
      | VDict r =>
          match dict_get (heap_get h r) k with
          | Some v => descend ks' v h
          | None =>
              let (r', h1) := alloc h [] in
              descend ks' (VDict r')
                (heap_set h1 r (dict_set (heap_get h1 r) k (VDict r')))
          end
      | _ => inl TypeError
      end
  end.

(** One turn of the outer loop of [update_config]. *)
Definition update_one (config : pyval) (key : string) (value : pyval)
  (h : heap) : pyexn + heap :=
  let keys := split_on "."%char key in
  match descend (removelast keys) config h with
  | inl e => inl e
  | inr (d, h1) => set_item d (last keys EmptyString) value h1
  end.

Fixpoint update_all (config : pyval) (updates : list (string * pyval))
  (h : heap) : pyexn * heap + heap :=
  match updates with
  | [] => inr h
  | (key, value) :: rest =>
      match update_one config key value h with
      | inl e => inl (e, h)
      | inr h1 => update_all config rest h1
      end
  end.

(** [update_config] *)
Definition update_config (updates : list (string * pyval)) (s : store)
  : outcome bool :=
  match get_config s with
  | Return config s1 =>
      match update_all config updates (heap_of s1) with
      | inr h => save_config config (with_heap h s1)
      | inl (e, h) => Raise e (with_heap h s1)
      end
  | Raise e s1 => Raise e s1
  | Exit code s1 => Exit code s1
  end.

(** Reading a value along a path of keys. *)
Fixpoint lookup (h : heap) (v : pyval) (keys : list string) : option pyval :=
  match keys with
  | [] => Some v
  | k :: rest =>
      match v with
      | VDict r =>
          match dict_get (heap_get h r) k with
          | Some v' => lookup h v' rest
          | None => None
          end
      | _ => None
      end
  end.

End ConfigStore.

(* ================================================================== *)
(** * Reading the answers of the two services *)
(* ================================================================== *)

(** [get_hue_state] and [get_solaredge_power] walk through the JSON body of
    an HTTP answer; whatever goes wrong on the way is an exception, and
    every exception ends in [None]. *)
Module Api.

Import ConfigStore.

Inductive api_exn :=
| RequestException   (** the request itself failed *)
| HTTPError          (** [raise_for_status] *)
| JSONDecodeError    (** [r.json()] *)
| AttributeError
| TypeError
| KeyError
| IndexError
| ValueError.

(** What [session.get] brings back: nothing (time-out, no connection), or
    a status code and a body, [None] when the body is not JSON. *)
Inductive http :=
| NoAnswer
| Answer (status : Z) (body : option json).

(** [r = session.get(...); r.raise_for_status(); data = r.json()] *)
Definition fetch (r : http) : api_exn + json :=
  match r with
  | NoAnswer => inl RequestException
  | Answer status body =>
      if (400 <=? status) && (status <? 600) then inl HTTPError
      else match body with
           | Some data => inr data
           | None => inl JSONDecodeError
           end
  end.

(** The value of a key in a parsed object: of a key that comes twice the
    last value counts. *)
Fixpoint field (fields : list (string * json)) (k : string) : option json :=
  match fields with
  | [] => None
  | (k', v) :: rest =>
      match field rest k with
      | Some v' => Some v'
      | None => if String.eqb k k' then Some v else None
      end
  end.

(** [x.get(k, default)]: only a dictionary has [get]. *)
Definition get (x : json) (k : string) (default : json) : api_exn + json :=
  match x with
  | JObj fields =>
      inr (match field fields k with Some v => v | None => default end)
  | _ => inl AttributeError
  end.

(** [x[0]] *)
Definition first (x : json) : api_exn + json :=
  match x with
  | JList (v :: _) => inr v
  | JList [] => inl IndexError
  | JStr (String c _) => inr (JStr (String c EmptyString))
  | JStr EmptyString => inl IndexError
  | JObj _ => inl KeyError
  | JNull | JBool _ | JNum _ => inl TypeError
  end.

Definition and_then {A B} (x : api_exn + A) (k : A -> api_exn + B)
  : api_exn + B :=
  match x with
  | inl e => inl e
  | inr a => k a
  end.

(** [get_hue_state]; [JNull] stands for Python's [None]. *)
Definition get_hue_state (r : http) : json :=
  let attempt :=
    and_then (fetch r) (fun data =>
    and_then (get data "data" (JList [JObj []])) (fun items =>
    and_then (first items) (fun obj =>
    and_then (get obj "on" (JObj [])) (fun on =>
    get on "on" JNull)))) in
  match attempt with
  | inr state => state
  | inl _ => JNull
  end.

(** [x or False], as a truth value: what [socket_on] is taken to be. *)
Definition truth (x : json) : bool :=
  match x with
  | JNull => false
  | JBool b => b
  | JNum q => negb (Qeq_bool q 0)
  | JStr s => negb (String.eqb s EmptyString)
  | JList l => match l with [] => false | _ => true end
  | JObj l => match l with [] => false | _ => true end
  end.

Section Power.

(** [float(s)] on a string is Python's own reading of decimal numbers; it is
    taken as given. *)
Variable float_of_string : string -> option Q.

(** [float(x)] *)
Definition to_float (x : json) : api_exn + Q :=
  match x with
  | JNum q => inr q
  | JBool b => inr (if b then 1 else 0)%Q
  | JStr s =>
      match float_of_string s with
      | Some q => inr q
      | None => inl ValueError
      end
  | JNull | JList _ | JObj _ => inl TypeError
  end.

(** [get_solaredge_power]: the power and the time stamp, or [(None, None)];
    [JNull] stands for a time stamp that is [None]. *)
Definition get_solaredge_power (r : http) : option Q * json :=
  let attempt :=
    and_then (fetch r) (fun data =>
    and_then (get data "overview" (JObj [])) (fun overview =>
    and_then (get overview "currentPower" (JObj [])) (fun current =>
    and_then (get current "power" JNull) (fun power =>
    and_then (get overview "lastUpdateTime" JNull) (fun ts =>
    and_then (to_float power) (fun watts =>
    inr (watts, ts))))))) in
  match attempt with
  | inr (watts, ts) => (Some watts, ts)
  | inl _ => (None, JNull)
  end.

End Power.

End Api.

(* ================================================================== *)
(** * Sample data *)
(* ================================================================== *)

(** 250 V, 10 A, margin 0.8 and hysteresis 0.15: thresholds 2000 W and
    1700 W; a one-minute window sampled every 10 s; 30 s of stability for ON
    and OFF, 300 s of minimum ON time; night from 22:00 to 06:00. *)
Definition sample_sampling : Sampling := mkSampling 60 10 30 30 300.

Definition sample_config_with (s : Sampling) (n : NightMode) (c : Control)
  : Config :=
  mkConfig (mkElectrical 250 10 (8 # 10) (15 # 100)) s n c.

Definition sample_config : Config :=
  sample_config_with sample_sampling (mkNightMode true "22:00" "06:00")
    (mkControl true None).

Definition noon : dtime := mkTime 12 0 0 0.

(** A world whose clock always answers [t] and whose actuator always
    answers [ok]. *)
Definition still_world (t : Q) (ok : bool) : World :=
  mkWorld (fun _ => t) 0 (fun _ => ok) 0.

Definition empty_window : deque := mkDeque [] 6.

(** Socket off, power above the ON threshold since t = 1000. *)
Definition waiting_on_state : LoopState :=
  mkLoopState empty_window (Some 1000%Q) None None false.

(** Socket on since t = 0. *)
Definition on_since_zero_state : LoopState :=
  mkLoopState empty_window None None (Some 0%Q) true.

(** Minimum ON time of 300 s and no stability required for OFF. *)
Definition guard_config : Config :=
  sample_config_with (mkSampling 60 10 30 0 300)
    (mkNightMode true "22:00" "06:00") (mkControl true None).

(** Iterations every 10 s from t = 60 on: the clock answers 60, 70, ... *)
Definition ten_second_world (ok : bool) : World :=
  mkWorld (fun n => inject_Z (60 + 10 * Z.of_nat n)) 0 (fun _ => ok) 0.

(** The same configuration at 23:00, inside the night window. *)
Definition night_input (power : Q) : CycleInput :=
  mkCycleInput (mkTime 23 0 0 0) guard_config (Some power).

(** A negative grid voltage, and no stability required for ON. *)
Definition negative_voltage_config : Config :=
  mkConfig (mkElectrical (- 250) 10 (8 # 10) (15 # 100))
    (mkSampling 60 10 0 30 300)
    (mkNightMode false "22:00" "06:00") (mkControl true None).

(** A night window that starts at 25 o'clock, with [control] as given. *)
Definition bad_window_config (c : Control) : Config :=
  sample_config_with sample_sampling (mkNightMode true "25:00" "06:00") c.

(** Socket off, nothing accumulated, window of six samples. *)
Definition idle_state : LoopState :=
  mkLoopState empty_window None None None false.

(** A world whose clock answers the readings of [table], then 0. *)
Definition table_world (table : list Q) (ok : bool) : World :=
  mkWorld (fun n => nth n table 0%Q) 0 (fun _ => ok) 0.

(** Socket on since t = 0, power at or below the OFF threshold since
    t = 1000. *)
Definition waiting_off_state : LoopState :=
  mkLoopState empty_window None (Some 1000%Q) (Some 0%Q) true.

(** A loaded configuration: the dictionary [control] at address 0 and the
    configuration itself at address 1; [writable] says whether
    [config.json] can be written. *)
Definition sample_store (writable : bool) : ConfigStore.store :=
  ConfigStore.mkStore
    [ [("auto_mode"%string, ConfigStore.VBool true)];
      [("control"%string, ConfigStore.VDict 0);
       ("version"%string, ConfigStore.VNum 1)] ]
    (ConfigStore.VDict 1)
    (ConfigStore.Text
       (ConfigStore.JObj
          [("control"%string,
            ConfigStore.JObj [("auto_mode"%string, ConfigStore.JBool true)]);
           ("version"%string, ConfigStore.JNum 1)]))
    ConfigStore.Absent writable true.

(** Automatic mode at noon with a sample of [power] watts. *)
Definition auto_input (power : Q) : CycleInput :=
  mkCycleInput noon sample_config (Some power).

(** Manual mode at noon asking for [state], with a sample of [power] watts. *)
Definition manual_input (state : bool) (power : Q) : CycleInput :=
  mkCycleInput noon
    (sample_config_with sample_sampling (mkNightMode true "22:00" "06:00")
       (mkControl false (Some state)))
    (Some power).

(* ================================================================== *)
(** * Properties of the thresholds *)
(* ================================================================== *)

Lemma py_int_floor_nonneg (x : Q) : (0 <= x)%Q -> py_int x = Qfloor x.
Proof.
  intros Hx. unfold py_int, Qfloor. destruct x as [n d]; simpl.
  assert (0 <= n) by (unfold Qle in Hx; simpl in Hx; lia).
  apply Z.quot_div_nonneg; lia.
Qed.

Lemma Qfloor_nonneg (x : Q) : (0 <= x)%Q -> 0 <= Qfloor x.
Proof.
  intros Hx. change 0 with (Qfloor 0). now apply Qfloor_resp_le.
Qed.



Example thresholds_of_sample_config :
  calculate_thresholds sample_config = (2000, 1700).
Proof. reflexivity. Qed.

(* ================================================================== *)
(** * Properties of the night window *)
(* ================================================================== *)

Example parse_time_22 : parse_time "22:00" = Ok (mkTime 22 0 0 0).
Proof. reflexivity. Qed.

Example parse_time_seconds : parse_time " 6:05:09" = Ok (mkTime 6 5 9 0).
Proof. reflexivity. Qed.

Example parse_time_bad_hour : parse_time "25:00" = Err ValueError.
Proof. reflexivity. Qed.

Example parse_time_bad_text : parse_time "22h00" = Err ValueError.
Proof. reflexivity. Qed.

(** For valid times the tuple comparison is the chronological one. *)
Lemma time_ltb_since_midnight (a b : dtime) :
  valid_time a = true -> valid_time b = true ->
  time_ltb a b = (since_midnight a <? since_midnight b).
Proof.
  unfold valid_time, time_ltb, time_cmp, since_midnight.
  destruct a as [ha ma sa ua], b as [hb mb sb ub]; cbn [hour minute second microsecond].
  intros Ha Hb.
  repeat (apply andb_prop in Ha; destruct Ha as [Ha ?]).
  repeat (apply andb_prop in Hb; destruct Hb as [Hb ?]).
  destruct (Z.compare_spec ha hb), (Z.compare_spec ma mb),
    (Z.compare_spec sa sb), (Z.compare_spec ua ub);
    symmetry; first [apply Z.ltb_lt | apply Z.ltb_ge]; lia.
Qed.

Lemma time_leb_since_midnight (a b : dtime) :
  valid_time a = true -> valid_time b = true ->
  time_leb a b = (since_midnight a <=? since_midnight b).
Proof.
  unfold valid_time, time_leb, time_cmp, since_midnight.
  destruct a as [ha ma sa ua], b as [hb mb sb ub]; cbn [hour minute second microsecond].
  intros Ha Hb.
  repeat (apply andb_prop in Ha; destruct Ha as [Ha ?]).
  repeat (apply andb_prop in Hb; destruct Hb as [Hb ?]).
  destruct (Z.compare_spec ha hb), (Z.compare_spec ma mb),
    (Z.compare_spec sa sb), (Z.compare_spec ua ub);
    symmetry; first [apply Z.leb_le | apply Z.leb_gt]; lia.
Qed.

Lemma check_time_fields_valid (h m s us : Z) (t : dtime) :
  check_time_fields h m s us = Ok t -> valid_time t = true.
Proof.
  unfold check_time_fields.
  destruct (negb _); [discriminate|].
  destruct (valid_time (mkTime h m s us)) eqn:E; [|discriminate].
  intros [= <-]. exact E.
Qed.

(** A time that was read from the configuration is a valid time. *)
Lemma parse_time_valid (s : string) (t : dtime) :
  parse_time s = Ok t -> valid_time t = true.
Proof.
  unfold parse_time, rbind.
  destruct (rmap int_of_string (split_colon s)) as [fields|]; [|discriminate].
  unfold dtime_of.
  destruct fields as [|h [|m [|sec [|us [|tz [|x r]]]]]];
    try discriminate; try apply check_time_fields_valid.
  unfold rbind. destruct (check_time_fields h m sec us); discriminate.
Qed.



(* ================================================================== *)
(** * Properties of one iteration *)
(* ================================================================== *)

Ltac unfold_cycle :=
  unfold cycle, manual_control, night_mode_handling, automatic_on,
    automatic_off, switch_to, or_time_time, lift, bind, ret, raise,
    time_time, set_hue_state, log_csv, sleep;
  cbv beta iota zeta.

Ltac simpl_state :=
  cbn [socket_on stable_on_since stable_off_since last_switch_time power_buffer
       set_power_buffer set_stable_on_since set_stable_off_since switched
       value world emitted app requests flat_map
       clock clock_calls actuator actuator_calls negb andb].

Ltac split_cases :=
  simpl_state;
  repeat match goal with
    | |- context [match ?c with _ => _ end] =>
        lazymatch c with
        | context [match _ with _ => _ end] => fail
        | _ => destruct c eqn:?; simpl_state
        end
    end.

(** C7. An iteration emits at most one switch request, and a request always
    asks for the opposite of the current socket state: manual override,
    night suppression, automatic ON and automatic OFF exclude each other, so
    no iteration asks both for ON and for OFF.  Under manual override the
    request is decided by the manual state alone. *)
Theorem one_request_per_cycle (inp : CycleInput) (st : LoopState) (w : World) :
  let reqs := requests (emitted (cycle inp st w)) in
  (reqs = [] \/ reqs = [negb (socket_on st)])
  /\ (List.length reqs <= 1)%nat
  /\ ~ (In true reqs /\ In false reqs)
  /\ (forall manual_state,
        auto_mode (control (ci_config inp)) = false ->
        manual_socket_state (control (ci_config inp)) = Some manual_state ->
        reqs = if Bool.eqb (socket_on st) manual_state then []
               else [manual_state]).
Proof.
  intros reqs.
  assert (H : reqs = [] \/ reqs = [negb (socket_on st)]).
  { subst reqs. unfold_cycle. split_cases; auto;
      match goal with
      | H : negb (Bool.eqb ?x ?y) = true |- _ =>
          destruct x, y; cbn in H; try discriminate; auto
      end. }
  split; [exact H|]. split; [|split].
  - destruct H as [-> | ->]; simpl; lia.
  - destruct H as [-> | ->]; simpl; [tauto|].
    destruct (socket_on st); simpl; intuition congruence.
  - intros ms Hauto Hman. subst reqs. unfold_cycle. rewrite Hauto, Hman.
    destruct (socket_on st), ms; cbn [Bool.eqb negb]; split_cases; reflexivity.
Qed.

Lemma one_request_per_cycle_witness :
  requests (emitted (cycle (manual_input true 0) waiting_on_state
                       (still_world 2000 true))) = [true].
Proof.
  exact (proj2 (proj2 (proj2
           (one_request_per_cycle (manual_input true 0) waiting_on_state
              (still_world 2000 true))))
           true eq_refl eq_refl).
Defined.

Ltac no_negative_sleep H :=
  repeat match goal with
    | |- context [?s <? 0] =>
        replace (s <? 0) with false by (symmetry; apply Z.ltb_ge; exact H)
    end.

(** C1 (as the code has it). When the switch request of an iteration fails,
    the socket state and the time of the last switch are left as they were;
    in the automatic ON or OFF evaluation the debounce timer that led to the
    request is cleared all the same, and the other timer is untouched. *)
Theorem failed_request_state (inp : CycleInput) (st : LoopState) (w : World)
  (state : bool) :
  0 <= sample_interval_s (sampling (ci_config inp)) ->
  In (HuePut state false) (emitted (cycle inp st w)) ->
  exists st',
    value (cycle inp st w) = Ok st'
    /\ socket_on st' = socket_on st
    /\ last_switch_time st' = last_switch_time st
    /\ (automatic_cycle inp ->
        if socket_on st
        then stable_off_since st' = None
             /\ stable_on_since st' = stable_on_since st
        else stable_on_since st' = None
             /\ stable_off_since st' = stable_off_since st).
Proof.
  intros Hsleep. unfold automatic_cycle. unfold_cycle.
  no_negative_sleep Hsleep.
  destruct (auto_mode (control (ci_config inp))) eqn:Hauto;
    destruct (is_night (ci_config inp) (ci_now inp)) as [[|]|] eqn:Hnight;
    split_cases; cbn [In]; intros Hin;
    repeat (destruct Hin as [Hin|Hin]; try discriminate Hin);
    try contradiction;
    eexists; (split; [reflexivity|]); simpl_state;
    (split; [congruence|]); (split; [congruence|]);
    intros (Ha & Hn & Hp);
    first [discriminate Ha | discriminate Hn | split; congruence
          | cbn [negb] in *; congruence].
Qed.

(** C1 (as stated) fails: socket off, power at 2100 W since t = 1000, the
    clock at 1040 and 30 s of stability required; the ON request is sent and
    fails, the socket state is kept, but the timer that was set is unset
    afterwards. *)
Lemma failed_request_clears_timer :
  let o := cycle (auto_input 2100) waiting_on_state (still_world 1040 false) in
  emitted o = [CsvRow noon 2100 (avg_of (mkDeque [2100%Q] 6) 2100)
                 (med_of (mkDeque [2100%Q] 6) 2100) false true;
               HuePut true false; Sleep 10]
  /\ stable_on_since waiting_on_state = Some 1000%Q
  /\ exists st', value o = Ok st'
                 /\ socket_on st' = false
                 /\ stable_on_since st' = None.
Proof.
  cbv zeta. split; [reflexivity|]. split; [reflexivity|].
  eexists. split; [reflexivity|]. split; reflexivity.
Qed.

Lemma failed_request_state_witness :
  exists st',
    value (cycle (auto_input 2100) waiting_on_state (still_world 1040 false))
      = Ok st'
    /\ socket_on st' = socket_on waiting_on_state
    /\ last_switch_time st' = last_switch_time waiting_on_state
    /\ (automatic_cycle (auto_input 2100) ->
        if socket_on waiting_on_state
        then stable_off_since st' = None
             /\ stable_on_since st' = stable_on_since waiting_on_state
        else stable_on_since st' = None
             /\ stable_off_since st' = stable_off_since waiting_on_state).
Proof.
  apply (failed_request_state (auto_input 2100) waiting_on_state
           (still_world 1040 false) true).
  - simpl. lia.
  - right. left. reflexivity.
Defined.




(* ================================================================== *)
(** * The automatic ON evaluation *)
(* ================================================================== *)

Lemma Qge_bool_true (x y : Q) : (y <= x)%Q -> Qge_bool x y = true.
Proof. intros H. unfold Qge_bool. now apply Qle_bool_iff. Qed.

Lemma Qge_bool_false (x y : Q) : (x < y)%Q -> Qge_bool x y = false.
Proof.
  intros H. unfold Qge_bool. destruct (Qle_bool y x) eqn:E; [|reflexivity].
  apply Qle_bool_iff in E. lra.
Qed.

Lemma Qle_bool_false (x y : Q) : (y < x)%Q -> Qle_bool x y = false.
Proof. exact (Qge_bool_false y x). Qed.

Lemma truthy_nonzero (t : Q) : ~ (t == 0)%Q -> truthy (Some t) = true.
Proof.
  intros H. unfold truthy. destruct (Qeq_bool t 0) eqn:E; [|reflexivity].
  apply Qeq_bool_iff in E. contradiction.
Qed.

Section AutomaticOn.

Variables (inp : CycleInput) (st : LoopState) (w : World) (power : Q).

Let config := ci_config inp.
Let buffer := deque_append (power_buffer st) power.
Let avg_w := avg_of buffer power.
Let on_threshold := inject_Z (fst (calculate_thresholds config)).
Let required := require_stable_on_s (sampling config).
Let first_reading := clock w (clock_calls w).
Let second_reading := clock w (S (clock_calls w)).

Hypothesis sleep_length : 0 <= sample_interval_s (sampling config).
Hypothesis automatic : auto_mode (control config) = true.
Hypothesis daytime : is_night config (ci_now inp) = Ok false.
Hypothesis sample : ci_power inp = Some power.
Hypothesis socket_off : socket_on st = false.

Ltac enter_automatic_on :=
  unfold avg_w, buffer, on_threshold, required, first_reading,
    second_reading, config in *;
  unfold_cycle;
  rewrite automatic, daytime, sample;
  no_negative_sleep sleep_length;
  simpl_state; rewrite socket_off; simpl_state.

(** Below the threshold: nothing is requested, no clock is read and the
    timer is unset. *)
Lemma cycle_on_below :
  (avg_w < on_threshold)%Q ->
  cycle inp st w =
    mkOutcome (Ok (set_stable_on_since None (set_power_buffer buffer st))) w
      [CsvRow (ci_now inp) power avg_w (med_of buffer power) false true;
       Sleep (sample_interval_s (sampling config))].
Proof.
  intros Hlow. enter_automatic_on.
  rewrite (Qge_bool_false _ _ Hlow). simpl_state. reflexivity.
Qed.

(** At or above the threshold with no timer set: the timer starts at the
    first clock reading and is compared with the second one. *)
Lemma cycle_on_start :
  stable_on_since st = None ->
  (on_threshold <= avg_w)%Q ->
  let o := cycle inp st w in
  ((second_reading - first_reading < required)%Q ->
     requests (emitted o) = []
     /\ value o = Ok (set_stable_on_since (Some first_reading)
                        (set_power_buffer buffer st)))
  /\ ((required <= second_reading - first_reading)%Q ->
     requests (emitted o) = [true]
     /\ exists st', value o = Ok st'
                    /\ stable_on_since st' = None
                    /\ socket_on st' = actuator w (actuator_calls w)).
Proof.
  intros Hnone Hhigh. cbv zeta. split; intros Hel; enter_automatic_on;
    rewrite (Qge_bool_true _ _ Hhigh), Hnone; simpl_state.
  - rewrite (Qge_bool_false _ _ Hel). simpl_state. split; reflexivity.
  - rewrite (Qge_bool_true _ _ Hel). simpl_state.
    destruct (actuator w (actuator_calls w)); simpl_state;
      (split; [reflexivity|]; eexists; (split; [reflexivity|]);
       simpl_state; split; first [reflexivity | assumption]).
Qed.

(** At or above the threshold with the timer set at [since]: the timer is
    kept and compared with the first clock reading. *)
Lemma cycle_on_continue (since : Q) :
  stable_on_since st = Some since ->
  ~ (since == 0)%Q ->
  (on_threshold <= avg_w)%Q ->
  let o := cycle inp st w in
  ((first_reading - since < required)%Q ->
     requests (emitted o) = []
     /\ value o = Ok (set_stable_on_since (Some since)
                        (set_power_buffer buffer st)))
  /\ ((required <= first_reading - since)%Q ->
     requests (emitted o) = [true]
     /\ exists st', value o = Ok st'
                    /\ stable_on_since st' = None
                    /\ socket_on st' = actuator w (actuator_calls w)).
Proof.
  intros Hsome Hnz Hhigh. cbv zeta. split; intros Hel; enter_automatic_on;
    rewrite (Qge_bool_true _ _ Hhigh), Hsome, (truthy_nonzero _ Hnz);
    simpl_state.
  - rewrite (Qge_bool_false _ _ Hel). simpl_state. split; reflexivity.
  - rewrite (Qge_bool_true _ _ Hel). simpl_state.
    destruct (actuator w (actuator_calls w)); simpl_state;
      (split; [reflexivity|]; eexists; (split; [reflexivity|]);
       simpl_state; split; first [reflexivity | assumption]).
Qed.

End AutomaticOn.

Lemma requests_app (a b : list Event) :
  requests (a ++ b) = requests a ++ requests b.
Proof. unfold requests. apply flat_map_app. Qed.

(** Two iterations of the loop, written out. *)
Lemma run_two (inp1 inp2 : CycleInput) (st : LoopState) (w : World) :
  forall st1 w1 evs,
    cycle inp1 st w = mkOutcome (Ok st1) w1 evs ->
    value (run [inp1; inp2] st w) = value (cycle inp2 st1 w1)
    /\ emitted (run [inp1; inp2] st w) = evs ++ emitted (cycle inp2 st1 w1).
Proof.
  intros st1 w1 evs H. cbn [run]. unfold bind, ret. rewrite H.
  destruct (cycle inp2 st1 w1) as [[st2|e] w2 evs2]; simpl_state;
    rewrite ?app_nil_r; split; reflexivity.
Qed.



(* ================================================================== *)
(** * The automatic OFF evaluation and the minimum ON time *)
(* ================================================================== *)

Section MinimumOnTime.

Variables (inp : CycleInput) (st : LoopState) (w : World) (last : Q).

Let config := ci_config inp.

Hypothesis sleep_length : 0 <= sample_interval_s (sampling config).
Hypothesis automatic : auto_mode (control config) = true.
Hypothesis daytime : is_night config (ci_now inp) = Ok false.
Hypothesis socket_is_on : socket_on st = true.
Hypothesis switched_at : last_switch_time st = Some last.
Hypothesis guarded :
  (clock w (clock_calls w) - last < min_on_time_s (sampling config))%Q.

(** Inside the guard window with a sample: one clock reading, no request,
    the stable-off timer unset, whatever the average is. *)
Lemma cycle_off_guarded (power : Q) :
  ci_power inp = Some power ->
  let buffer := deque_append (power_buffer st) power in
  cycle inp st w =
    mkOutcome (Ok (set_stable_off_since None (set_power_buffer buffer st)))
      (mkWorld (clock w) (S (clock_calls w)) (actuator w) (actuator_calls w))
      [CsvRow (ci_now inp) power (avg_of buffer power) (med_of buffer power)
         true true;
       Sleep (sample_interval_s (sampling config))].
Proof.
  intros Hsample. cbv zeta. unfold_cycle.
  change (ci_config inp) with config.
  rewrite automatic, daytime, Hsample.
  no_negative_sleep sleep_length.
  simpl_state. rewrite socket_is_on, switched_at. simpl_state.
  rewrite (Qge_bool_false _ _ guarded), andb_false_r. simpl_state.
  reflexivity.
Qed.

(** Without a sample the iteration only sleeps. *)
Lemma cycle_no_sample :
  ci_power inp = None ->
  cycle inp st w =
    mkOutcome (Ok st) w [Sleep (sample_interval_s (sampling config))].
Proof.
  intros Hsample. unfold_cycle. change (ci_config inp) with config.
  rewrite automatic, Hsample. no_negative_sleep sleep_length. reflexivity.
Qed.

End MinimumOnTime.

Lemma run_cons (inp : CycleInput) (rest : list CycleInput) (st : LoopState)
  (w : World) :
  forall st1 w1 evs,
    cycle inp st w = mkOutcome (Ok st1) w1 evs ->
    value (run (inp :: rest) st w) = value (run rest st1 w1)
    /\ emitted (run (inp :: rest) st w) = evs ++ emitted (run rest st1 w1).
Proof.
  intros st1 w1 evs H. cbn [run]. unfold bind. rewrite H.
  destruct (run rest st1 w1) as [v w2 evs2]. split; reflexivity.
Qed.

(** While every clock reading stays inside the guard window, a run of
    automatic daytime iterations requests nothing and leaves the socket on. *)
Lemma run_guarded (last : Q) (inputs : list CycleInput) :
  forall (st : LoopState) (w : World),
    Forall automatic_daytime inputs ->
    socket_on st = true ->
    last_switch_time st = Some last ->
    (forall inp n,
        In inp inputs ->
        (clock_calls w <= n < clock_calls w + List.length inputs)%nat ->
        (clock w n - last < min_on_time_s (sampling (ci_config inp)))%Q) ->
    requests (emitted (run inputs st w)) = []
    /\ exists st', value (run inputs st w) = Ok st'
                   /\ socket_on st' = true
                   /\ last_switch_time st' = Some last.
Proof.
  induction inputs as [|inp rest IH]; intros st w Hall Hon Hlast Hclock.
  - cbn. split; [reflexivity|]. eexists. split; [reflexivity|]. now split.
  - inversion Hall as [|? ? (Hsleep & Hauto & Hday) Hrest]; subst.
    destruct (ci_power inp) as [power|] eqn:Hsample.
    + assert (Hguard : (clock w (clock_calls w) - last
                        < min_on_time_s (sampling (ci_config inp)))%Q).
      { apply Hclock; [now left | cbn [List.length]; lia]. }
      pose proof (cycle_off_guarded inp st w last Hsleep Hauto Hday Hon Hlast
                    Hguard power Hsample) as Hcycle. cbv zeta in Hcycle.
      destruct (run_cons inp rest st w _ _ _ Hcycle) as [Hval Hev].
      rewrite Hval, Hev, requests_app. simpl_state.
      apply IH; try assumption.
      intros inp' n Hin Hn. cbn [clock clock_calls] in Hn.
      apply Hclock; [now right | cbn [List.length]; lia].
    + pose proof (cycle_no_sample inp st w Hsleep Hauto Hsample) as Hcycle.
      destruct (run_cons inp rest st w _ _ _ Hcycle) as [Hval Hev].
      rewrite Hval, Hev, requests_app. simpl_state.
      apply IH; try assumption.
      intros inp' n Hin Hn.
      apply Hclock; [now right | cbn [List.length]; lia].
Qed.




(* ================================================================== *)
(** * The rolling window *)
(* ================================================================== *)

Lemma deque_append_bounded (d : deque) (x : Q) :
  0 <= maxlen d -> len d <= maxlen d ->
  len (deque_append d x) <= maxlen d.
Proof.
  unfold len, deque_append. cbn [items maxlen]. intros Hcap Hlen.
  rewrite length_app. cbn [List.length].
  destruct (Z.ltb_spec (maxlen d) (Z.of_nat (List.length (items d) + 1))) as [H|H].
  - destruct (items d) as [|a l]; cbn [app tl List.length] in *;
      [lia | rewrite length_app; cbn [List.length]; lia].
  - rewrite length_app. cbn [List.length]. lia.
Qed.

(** After an append the window holds at least one sample, provided its
    capacity is at least one. *)
Lemma deque_append_nonempty (d : deque) (x : Q) :
  1 <= maxlen d -> 0 < len (deque_append d x).
Proof.
  unfold len, deque_append. cbn [items maxlen]. intros Hcap.
  destruct (Z.ltb_spec (maxlen d) (Z.of_nat (List.length (items d ++ [x])))) as [H|H];
    rewrite length_app in H; cbn [List.length] in H.
  - destruct (items d) as [|a l]; cbn [app tl List.length] in *;
      [lia | rewrite length_app; cbn [List.length]; lia].
  - rewrite length_app. cbn [List.length]. lia.
Qed.

(** At capacity the oldest sample leaves. *)
Lemma deque_append_evicts (d : deque) (x : Q) :
  1 <= maxlen d -> len d = maxlen d ->
  items (deque_append d x) = tl (items d) ++ [x].
Proof.
  unfold len, deque_append. cbn [items maxlen]. intros Hcap Hlen.
  rewrite length_app. cbn [List.length].
  destruct (Z.ltb_spec (maxlen d) (Z.of_nat (List.length (items d) + 1))) as [H|H];
    [|lia].
  destruct (items d) as [|a l]; [cbn in Hlen; lia | reflexivity].
Qed.

Lemma tl_skipn_snoc (k : nat) (l : list Q) (x : Q) :
  (k <= List.length l)%nat ->
  tl (skipn k l ++ [x]) = skipn (S k) (l ++ [x]).
Proof.
  revert l. induction k as [|k IH]; intros [|a l] Hk; cbn [List.length] in Hk;
    try lia; try reflexivity.
  cbn [skipn app]. rewrite IH by lia. reflexivity.
Qed.

Lemma feed_snoc (samples : list Q) (x : Q) (d : deque) :
  feed (samples ++ [x]) d = deque_append (feed samples d) x.
Proof. unfold feed. now rewrite fold_left_app. Qed.

(** Fed from empty, the window holds the most recent samples, as many as its
    capacity allows. *)
Lemma feed_holds_latest (cap : nat) (samples : list Q) :
  let d := feed samples (mkDeque [] (Z.of_nat cap)) in
  maxlen d = Z.of_nat cap
  /\ items d = skipn (List.length samples - cap) samples.
Proof.
  induction samples as [|x samples IH] using rev_ind; cbv zeta.
  - split; reflexivity.
  - cbv zeta in IH. destruct IH as [Hmax Hitems].
    rewrite feed_snoc. split; [exact Hmax|].
    unfold deque_append. cbn [items maxlen]. rewrite Hmax, Hitems.
    rewrite !length_app, length_skipn. cbn [List.length].
    destruct (Z.ltb_spec (Z.of_nat cap)
                (Z.of_nat (List.length samples - (List.length samples - cap) + 1)))
      as [H|H].
    + rewrite tl_skipn_snoc by lia. f_equal. lia.
    + replace (List.length samples + 1 - cap)%nat with 0%nat by lia.
      replace (List.length samples - cap)%nat with 0%nat by lia.
      reflexivity.
Qed.

Lemma avg_of_held (d : deque) (x : Q) :
  1 <= maxlen d ->
  avg_of (deque_append d x) x = mean (items (deque_append d x))
  /\ med_of (deque_append d x) x = median (items (deque_append d x)).
Proof.
  intros Hcap. unfold avg_of, med_of.
  pose proof (deque_append_nonempty d x Hcap) as H.
  apply Z.ltb_lt in H. rewrite H. split; reflexivity.
Qed.

(** An iteration that raises nothing returns, and its window is the old one
    with the sample of the iteration appended, if there is one. *)
Lemma cycle_window (inp : CycleInput) (st : LoopState) (w : World) :
  cycle_defined inp ->
  exists st',
    value (cycle inp st w) = Ok st'
    /\ power_buffer st' =
         match appended inp with
         | Some p => deque_append (power_buffer st) p
         | None => power_buffer st
         end.
Proof.
  intros (Hsleep & night & Hnight). unfold appended. unfold_cycle.
  rewrite Hnight. no_negative_sleep Hsleep. cbv zeta.
  split_cases; eexists; split; reflexivity.
Qed.

(** The row an iteration logs carries the sample just appended and the
    statistics of the window as it is held after that append. *)
Lemma cycle_row (inp : CycleInput) (st : LoopState) (w : World)
  (ts : dtime) (p avg med : Q) (s a : bool) :
  1 <= maxlen (power_buffer st) ->
  In (CsvRow ts p avg med s a) (emitted (cycle inp st w)) ->
  appended inp = Some p
  /\ avg = mean (items (deque_append (power_buffer st) p))
  /\ med = median (items (deque_append (power_buffer st) p)).
Proof.
  intros Hcap. unfold appended. unfold_cycle. cbv zeta.
  split_cases; cbn [In]; intros Hin;
    repeat (destruct Hin as [Hin|Hin]; try discriminate Hin);
    try contradiction;
    injection Hin as <- <- <- <- <- <-;
    (split; [reflexivity | apply avg_of_held; exact Hcap]).
Qed.

Lemma run_window (inputs : list CycleInput) :
  forall (st : LoopState) (w : World),
    Forall cycle_defined inputs ->
    exists st',
      value (run inputs st w) = Ok st'
      /\ power_buffer st' = feed (samples_of inputs) (power_buffer st).
Proof.
  induction inputs as [|inp rest IH]; intros st w Hall.
  - eexists. split; reflexivity.
  - inversion Hall as [|? ? Hdef Hrest]; subst.
    destruct (cycle_window inp st w Hdef) as (st1 & Hval & Hbuf).
    destruct (cycle inp st w) as [v w1 evs] eqn:Hcycle. cbn in Hval. subst v.
    destruct (run_cons inp rest st w _ _ _ Hcycle) as [Hv _].
    destruct (IH st1 w1 Hrest) as (st' & Hval' & Hbuf').
    exists st'. split; [now rewrite Hv|].
    rewrite Hbuf', Hbuf. unfold samples_of, feed. cbn [flat_map].
    rewrite fold_left_app. destruct (appended inp); reflexivity.
Qed.



(* ================================================================== *)
(** * Invalid configurations *)
(* ================================================================== *)

Lemma py_int_ceiling_nonpos (x : Q) : (x <= 0)%Q -> py_int x = Qceiling x.
Proof.
  intros Hx. unfold py_int, Qceiling, Qfloor. destruct x as [n d]; simpl.
  assert (n <= 0) by (unfold Qle in Hx; simpl in Hx; lia).
  rewrite <- (Z.opp_involutive n) at 1. rewrite Z.quot_opp_l by lia.
  rewrite Z.quot_div_nonneg by lia. reflexivity.
Qed.

(** [is_night] raises exactly when the window is enabled and one of its two
    ends cannot be read, the start being read first. *)
Lemma is_night_raises (config : Config) (now : dtime) (e : exn) :
  is_night config now = Err e <->
  enabled (night_mode config) = true
  /\ (parse_time (night_start (night_mode config)) = Err e
      \/ (exists start_time,
             parse_time (night_start (night_mode config)) = Ok start_time)
         /\ parse_time (night_end (night_mode config)) = Err e).
Proof.
  unfold is_night.
  destruct (enabled (night_mode config)); cbn [negb].
  - destruct (parse_time (night_start (night_mode config))) as [s|e1];
      cbn [rbind].
    + destruct (parse_time (night_end (night_mode config))) as [t|e2];
        cbn [rbind].
      * destruct (time_ltb s t); split; try discriminate;
          intros (_ & [H | (_ & H)]); discriminate.
      * split.
        -- intros [= <-]. split; [reflexivity|]. right. split; [|reflexivity].
           now exists s.
        -- intros (_ & [H | (_ & H)]); [discriminate | congruence].
    + split.
      * intros [= <-]. split; [reflexivity|]. now left.
      * intros (_ & [H | ((s & Hs) & _)]); [congruence | discriminate].
  - split; [discriminate | intros (H & _); discriminate].
Qed.

(** With a valid sleep length, an iteration raises exactly when it is in
    automatic mode, has read a sample and [is_night] raises. *)
Lemma cycle_raises (inp : CycleInput) (st : LoopState) (w : World) (e : exn) :
  0 <= sample_interval_s (sampling (ci_config inp)) ->
  (value (cycle inp st w) = Err e <->
   auto_mode (control (ci_config inp)) = true
   /\ ci_power inp <> None
   /\ is_night (ci_config inp) (ci_now inp) = Err e).
Proof.
  intros Hsleep. unfold_cycle. no_negative_sleep Hsleep. cbv zeta.
  destruct (auto_mode (control (ci_config inp))).
  - destruct (ci_power inp) as [power|]; simpl_state.
    + destruct (is_night (ci_config inp) (ci_now inp)) as [night|e1];
        simpl_state.
      * split; [|intros (_ & _ & H); discriminate].
        split_cases; discriminate.
      * split; [intros [= <-]; repeat split; discriminate
               | intros (_ & _ & H); congruence].
    + split; [discriminate | intros (_ & H & _); congruence].
  - split; [|intros (H & _); discriminate].
    split_cases; discriminate.
Qed.




(* ================================================================== *)
(** * Importing the web application *)
(* ================================================================== *)

(** C10. Executing [web_app.py] stops at its import from
    [solar_charge_switch] with an [ImportError]: [cleanup_old_logs] is asked
    for and is not a name of that module (every other name asked for is).
    Nothing after the import has run by then: [app] is not bound and no
    route is registered, the log-cleanup one included. *)
Theorem web_app_import_fails :
  failure import_web_app = Some ImportError
  /\ routes import_web_app = []
  /\ mem "app" (bound import_web_app) = false
  /\ mem "cleanup_old_logs" solar_charge_switch_names = false
  /\ In (FromImport "solar_charge_switch"
           ["get_config"; "save_config"; "update_config"; "load_config";
            "get_solaredge_power"; "get_hue_state"; "set_hue_state";
            "calculate_thresholds"; "cleanup_old_logs"]%string) web_app
  /\ missing_names "solar_charge_switch"
       ["get_config"; "save_config"; "update_config"; "load_config";
        "get_solaredge_power"; "get_hue_state"; "set_hue_state";
        "calculate_thresholds"; "cleanup_old_logs"]%string
     = ["cleanup_old_logs"%string]
  /\ (forall registered names,
        routes (exec_module web_app names registered) = registered).
Proof.
  repeat split; try reflexivity.
  cbn. do 6 right. left. reflexivity.
Qed.

(* ================================================================== *)
(** * Further checks *)
(* ================================================================== *)

Example mean_of_one : mean [2100%Q] == 2100%Q.
Proof. reflexivity. Qed.

Example median_of_one : median [2100%Q] = 2100%Q.
Proof. reflexivity. Qed.

Example median_of_three : median [3; 1; 2]%Q = 2%Q.
Proof. reflexivity. Qed.

Example median_of_four : (median [3; 1; 2; 10] == 5 # 2)%Q.
Proof. reflexivity. Qed.

(** The scenario of the specification: thresholds 2000 W and 1700 W, 30 s of
    stability, samples 2100, 2200, 2050 ten seconds apart, then 2100: the
    first three iterations request nothing, the fourth requests ON. *)
Example end_to_end_scenario :
  let clock := [1000; 1000; 1010; 1020; 1030; 1030]%Q in
  requests (emitted (run (map auto_input [2100; 2200; 2050]%Q) idle_state
                       (table_world clock true))) = []
  /\ requests (emitted (run (map auto_input [2100; 2200; 2050; 2100]%Q)
                          idle_state (table_world clock true))) = [true].
Proof. split; reflexivity. Qed.

(** A timer is only ever set to a clock reading or kept: if the clock never
    answers 0.0, no timer holds 0.0. *)
Lemma timers_hold_clock_readings (inp : CycleInput) (st st' : LoopState)
  (w : World) :
  (forall n, ~ (clock w n == 0)%Q) ->
  timers_nonzero st ->
  value (cycle inp st w) = Ok st' ->
  timers_nonzero st'.
Proof.
  intros Hclock [Hon Hoff]. unfold timers_nonzero. unfold_cycle. cbv zeta.
  split_cases; simpl_state; intros [= <-]; simpl_state;
    split; intros t Ht; try discriminate;
    try (injection Ht as <-); auto;
    match goal with
    | H : truthy (Some ?x) = true |- ~ (?x == 0)%Q =>
        let E := fresh in
        intros E; apply Qeq_bool_iff in E; unfold truthy in H;
        rewrite E in H; discriminate
    end.
Qed.

(* ================================================================== *)
(** * Night suppression *)
(* ================================================================== *)

(** X1. In automatic mode, an iteration that reads a sample inside the night
    window asks for OFF at once when the socket is on, whatever the power,
    the thresholds, the timers and the time of the last switch are, and asks
    for nothing when it is off; both debounce timers are left as they
    were.  The socket state follows the request when it succeeds. *)
Theorem night_cutoff (inp : CycleInput) (st : LoopState) (w : World)
  (power : Q) :
  0 <= sample_interval_s (sampling (ci_config inp)) ->
  auto_mode (control (ci_config inp)) = true ->
  ci_power inp = Some power ->
  is_night (ci_config inp) (ci_now inp) = Ok true ->
  let o := cycle inp st w in
  let ok := actuator w (actuator_calls w) in
  requests (emitted o) = (if socket_on st then [false] else [])
  /\ exists st',
      value o = Ok st'
      /\ socket_on st' = (socket_on st && negb ok)
      /\ last_switch_time st' =
           (if socket_on st && ok then Some (clock w (clock_calls w))
            else last_switch_time st)
      /\ stable_on_since st' = stable_on_since st
      /\ stable_off_since st' = stable_off_since st
      /\ power_buffer st' = deque_append (power_buffer st) power.
Proof.
  intros Hsleep Hauto Hsample Hnight. cbv zeta. unfold_cycle.
  rewrite Hauto, Hsample, Hnight. no_negative_sleep Hsleep. simpl_state.
  destruct (socket_on st) eqn:Hon; simpl_state.
  - destruct (actuator w (actuator_calls w)); simpl_state;
      (split; [reflexivity|]); eexists; (split; [reflexivity|]);
      simpl_state; rewrite ?Hon; repeat split; reflexivity.
  - split; [reflexivity|]. eexists. split; [reflexivity|].
    simpl_state. rewrite ?Hon. repeat split; reflexivity.
Qed.

Lemma night_cutoff_witness :
  let o := cycle (night_input 2500) on_since_zero_state (ten_second_world true) in
  requests (emitted o) = [false]
  /\ exists st',
      value o = Ok st'
      /\ socket_on st' = false
      /\ last_switch_time st' = Some 60%Q
      /\ stable_on_since st' = None
      /\ stable_off_since st' = None
      /\ power_buffer st' = deque_append empty_window 2500.
Proof.
  apply (night_cutoff (night_input 2500) on_since_zero_state
           (ten_second_world true) 2500).
  - simpl. lia.
  - reflexivity.
  - reflexivity.
  - reflexivity.
Defined.

(* ================================================================== *)
(** * The automatic OFF evaluation *)
(* ================================================================== *)



(* ================================================================== *)
(** * Iterations that evaluate nothing *)
(* ================================================================== *)

Lemma cycle_passive (inp : CycleInput) (st : LoopState) (w : World) :
  passive (socket_on st) inp ->
  exists evs,
    cycle inp st w =
      mkOutcome
        (Ok (match appended inp with
             | Some p => set_power_buffer (deque_append (power_buffer st) p) st
             | None => st
             end))
        w evs
    /\ requests evs = [].
Proof.
  intros [Hsleep Hmode]. unfold appended. unfold_cycle.
  no_negative_sleep Hsleep.
  destruct (auto_mode (control (ci_config inp))).
  - rewrite Hmode. eexists. split; reflexivity.
  - destruct Hmode as [-> | ->].
    + destruct (ci_power inp); simpl_state; eexists; split; reflexivity.
    + rewrite Bool.eqb_reflx. simpl_state. eexists. split; reflexivity.
Qed.

Lemma set_power_buffer_feed (l1 l2 : list Q) (st : LoopState) :
  set_power_buffer (feed l2 (power_buffer (set_power_buffer
                                             (feed l1 (power_buffer st)) st)))
    (set_power_buffer (feed l1 (power_buffer st)) st)
  = set_power_buffer (feed (l1 ++ l2) (power_buffer st)) st.
Proof.
  unfold set_power_buffer, feed. simpl_state. now rewrite fold_left_app.
Qed.

(** A run of iterations that evaluate nothing changes the window only, and
    reads no clock and calls no actuator. *)
Lemma run_passive_outcome (inputs : list CycleInput) :
  forall (st : LoopState) (w : World),
    Forall (passive (socket_on st)) inputs ->
    exists evs,
      run inputs st w =
        mkOutcome
          (Ok (set_power_buffer (feed (samples_of inputs) (power_buffer st)) st))
          w evs
      /\ requests evs = [].
Proof.
  induction inputs as [|inp rest IH]; intros st w Hall.
  - exists []. split; [|reflexivity]. cbn. now destruct st.
  - inversion Hall as [|? ? Hp Hrest]; subst.
    destruct (cycle_passive inp st w Hp) as (evs & Hcycle & Hreq).
    assert (Hst1 :
      match appended inp with
      | Some p => set_power_buffer (deque_append (power_buffer st) p) st
      | None => st
      end
      = set_power_buffer
          (feed (match appended inp with Some p => [p] | None => [] end)
             (power_buffer st)) st)
      by (destruct (appended inp); [reflexivity | now destruct st]).
    rewrite Hst1 in Hcycle.
    set (st1 := set_power_buffer _ st) in Hcycle.
    assert (Hrest1 : Forall (passive (socket_on st1)) rest) by exact Hrest.
    destruct (IH st1 w Hrest1) as (evs2 & Hrun & Hreq2).
    exists (evs ++ evs2). split.
    + cbn [run]. unfold bind. rewrite Hcycle, Hrun. subst st1.
      rewrite set_power_buffer_feed. reflexivity.
    + now rewrite requests_app, Hreq, Hreq2.
Qed.

(** X3. Over any run of iterations that evaluate nothing (a failed read in
    automatic mode, automatic mode off without a manual state, or a manual
    state equal to the socket state) nothing is requested, the clock is not
    read and the actuator is not called; the socket state, both debounce
    timers and the time of the last switch stay as they were, so time keeps
    counting for the timers; only the samples read with automatic mode off
    enter the window. *)
Theorem passive_run (inputs : list CycleInput) (st : LoopState) (w : World) :
  Forall (passive (socket_on st)) inputs ->
  let o := run inputs st w in
  requests (emitted o) = []
  /\ world o = w
  /\ exists st',
      value o = Ok st'
      /\ socket_on st' = socket_on st
      /\ stable_on_since st' = stable_on_since st
      /\ stable_off_since st' = stable_off_since st
      /\ last_switch_time st' = last_switch_time st
      /\ power_buffer st' = feed (samples_of inputs) (power_buffer st).
Proof.
  intros Hall. cbv zeta.
  destruct (run_passive_outcome inputs st w Hall) as (evs & -> & Hreq).
  simpl_state. split; [exact Hreq|]. split; [reflexivity|].
  eexists. split; [reflexivity|]. simpl_state. repeat split; reflexivity.
Qed.

Lemma passive_run_witness :
  let inputs :=
    [mkCycleInput noon sample_config None; manual_input false 2500;
     mkCycleInput noon
       (sample_config_with sample_sampling (mkNightMode false "22:00" "06:00")
          (mkControl false None))
       (Some 2500%Q)] in
  let o := run inputs waiting_on_state (still_world 5000 true) in
  requests (emitted o) = []
  /\ world o = still_world 5000 true
  /\ exists st',
      value o = Ok st'
      /\ socket_on st' = false
      /\ stable_on_since st' = Some 1000%Q
      /\ stable_off_since st' = None
      /\ last_switch_time st' = None
      /\ power_buffer st' = mkDeque [2500%Q] 6.
Proof.
  apply (passive_run
           [mkCycleInput noon sample_config None; manual_input false 2500;
            mkCycleInput noon
              (sample_config_with sample_sampling
                 (mkNightMode false "22:00" "06:00") (mkControl false None))
              (Some 2500%Q)]
           waiting_on_state (still_world 5000 true)).
  apply Forall_cons; [split; [simpl; lia | reflexivity]|].
  apply Forall_cons; [split; [simpl; lia | right; reflexivity]|].
  apply Forall_cons; [split; [simpl; lia | left; reflexivity]|].
  apply Forall_nil.
Defined.

(* ================================================================== *)
(** * Manual override over several iterations *)
(* ================================================================== *)

Lemma cycle_manual_switch (ms : bool) (inp : CycleInput) (st : LoopState)
  (w : World) :
  manual_override ms inp ->
  socket_on st <> ms ->
  let ok := actuator w (actuator_calls w) in
  cycle inp st w =
    mkOutcome
      (Ok (if ok then switched ms (clock w (clock_calls w)) st else st))
      (mkWorld (clock w) (if ok then S (clock_calls w) else clock_calls w)
         (actuator w) (S (actuator_calls w)))
      [HuePut ms ok; Sleep (sample_interval_s (sampling (ci_config inp)))].
Proof.
  intros (Hsleep & Hauto & Hman) Hdiff. cbv zeta. unfold_cycle.
  rewrite Hauto, Hman. no_negative_sleep Hsleep.
  replace (Bool.eqb (socket_on st) ms) with false
    by (destruct (socket_on st), ms; simpl; congruence).
  simpl_state. destruct (actuator w (actuator_calls w)); reflexivity.
Qed.

Lemma sleeps_silent (inputs : list CycleInput) :
  requests (sleeps inputs) = [] /\ filter is_row (sleeps inputs) = [].
Proof.
  induction inputs as [|inp rest [IH1 IH2]]; [split; reflexivity|].
  split; cbn; assumption.
Qed.

(** Once the socket state is the manual state, manual iterations only
    sleep. *)
Lemma run_manual_matching (ms : bool) (inputs : list CycleInput) :
  forall (st : LoopState) (w : World),
    Forall (manual_override ms) inputs ->
    socket_on st = ms ->
    run inputs st w = mkOutcome (Ok st) w (sleeps inputs).
Proof.
  induction inputs as [|inp rest IH]; intros st w Hall Hsame.
  - reflexivity.
  - inversion Hall as [|? ? (Hsleep & Hauto & Hman) Hrest]; subst.
    cbn [run]. unfold bind at 1.
    assert (Hcycle : cycle inp st w =
              mkOutcome (Ok st) w
                [Sleep (sample_interval_s (sampling (ci_config inp)))]).
    { unfold_cycle. rewrite Hauto, Hman, Bool.eqb_reflx.
      no_negative_sleep Hsleep. reflexivity. }
    rewrite Hcycle, (IH st w Hrest eq_refl). reflexivity.
Qed.

(** While the actuator refuses, every manual iteration repeats the request
    and the state stays as it is. *)
Lemma run_manual_refused (ms : bool) (inputs : list CycleInput) :
  forall (st : LoopState) (w : World),
    Forall (manual_override ms) inputs ->
    socket_on st <> ms ->
    (forall n, actuator w n = false) ->
    value (run inputs st w) = Ok st
    /\ requests (emitted (run inputs st w)) = repeat ms (List.length inputs)
    /\ filter is_row (emitted (run inputs st w)) = [].
Proof.
  induction inputs as [|inp rest IH]; intros st w Hall Hdiff Hfail.
  - repeat split.
  - inversion Hall as [|? ? Hm Hrest]; subst.
    pose proof (cycle_manual_switch ms inp st w Hm Hdiff) as Hcycle.
    cbv zeta in Hcycle. rewrite Hfail in Hcycle.
    destruct (run_cons inp rest st w _ _ _ Hcycle) as [Hval Hev].
    destruct (IH st (mkWorld (clock w) (clock_calls w) (actuator w)
                       (S (actuator_calls w))) Hrest Hdiff Hfail)
      as (Hv & Hr & Hrow).
    rewrite Hval, Hev, requests_app, filter_app, Hv, Hr, Hrow.
    repeat split.
Qed.

(** X4. Over a run of iterations under manual override that ask for a state
    other than the socket's: when the actuator accepts the first request,
    that request is the only one of the whole run, and the socket state is
    the manual state from then on; while the actuator refuses, the request
    is repeated once per iteration and the state is unchanged.  In both
    cases no sample is read, nothing is logged, and the window and both
    debounce timers stay as they were. *)
Theorem manual_override_run (ms : bool) (inp : CycleInput)
  (rest : list CycleInput) (st : LoopState) (w : World) :
  Forall (manual_override ms) (inp :: rest) ->
  socket_on st <> ms ->
  let o := run (inp :: rest) st w in
  (actuator w (actuator_calls w) = true ->
     requests (emitted o) = [ms]
     /\ filter is_row (emitted o) = []
     /\ value o = Ok (switched ms (clock w (clock_calls w)) st))
  /\ ((forall n, actuator w n = false) ->
     requests (emitted o) = repeat ms (S (List.length rest))
     /\ filter is_row (emitted o) = []
     /\ value o = Ok st).
Proof.
  intros Hall Hdiff. cbv zeta. split.
  - intros Hok. inversion Hall as [|? ? Hm Hrest]; subst.
    pose proof (cycle_manual_switch ms inp st w Hm Hdiff) as Hcycle.
    cbv zeta in Hcycle. rewrite Hok in Hcycle.
    destruct (run_cons inp rest st w _ _ _ Hcycle) as [Hval Hev].
    rewrite Hval, Hev, requests_app, filter_app.
    rewrite (run_manual_matching ms rest
               (switched ms (clock w (clock_calls w)) st)
               (mkWorld (clock w) (S (clock_calls w)) (actuator w)
                  (S (actuator_calls w))) Hrest eq_refl).
    cbn [value emitted].
    destruct (sleeps_silent rest) as [-> ->]. repeat split.
  - intros Hfail.
    destruct (run_manual_refused ms (inp :: rest) st w Hall Hdiff Hfail)
      as (Hv & Hr & Hrow).
    repeat split; assumption.
Qed.

Lemma manual_override_run_witness :
  let o := run [manual_input true 0; manual_input true 2500;
                manual_input true 0]
             waiting_on_state (still_world 2000 true) in
  requests (emitted o) = [true]
  /\ filter is_row (emitted o) = []
  /\ value o = Ok (switched true 2000 waiting_on_state).
Proof.
  apply (manual_override_run true (manual_input true 0)
           [manual_input true 2500; manual_input true 0]
           waiting_on_state (still_world 2000 true)).
  - repeat (apply Forall_cons; [repeat split; simpl; lia|]). apply Forall_nil.
  - simpl. discriminate.
  - reflexivity.
Defined.

(* ================================================================== *)
(** * The events of an iteration and the state they leave *)
(* ================================================================== *)

Ltac pick_events :=
  let finish :=
    (split; [reflexivity|];
     split; intros ? He; inversion He; subst; reflexivity) in
  match goal with
  | |- exists row put, [_] = _ /\ _ => exists None, None; finish
  | |- exists row put, [?a; _] = _ /\ _ =>
      first [exists (Some a), None; finish | exists None, (Some a); finish]
  | |- exists row put, [?a; ?b; _] = _ /\ _ =>
      exists (Some a), (Some b); finish
  end.

(** X5. An iteration that raises nothing emits, in this order, at most one
    log row, at most one switch request, and exactly one sleep of
    [sample_interval_s] seconds, which ends it.  An iteration that raises
    (the night window cannot be read) has logged its row and has neither
    requested nor slept. *)
Theorem cycle_events_shape (inp : CycleInput) (st : LoopState) (w : World) :
  0 <= sample_interval_s (sampling (ci_config inp)) ->
  let o := cycle inp st w in
  ((exists st', value o = Ok st') ->
   exists row put,
     emitted o = optional_event row ++ optional_event put
                 ++ [Sleep (sample_interval_s (sampling (ci_config inp)))]
     /\ (forall e, row = Some e -> is_row e = true)
     /\ (forall e, put = Some e -> is_put e = true))
  /\ ((exists e, value o = Err e) ->
      exists row, emitted o = [row] /\ is_row row = true).
Proof.
  intros Hsleep. cbv zeta. unfold_cycle. no_negative_sleep Hsleep.
  split.
  - split_cases; intros [? Hst']; try discriminate Hst';
      unfold optional_event; pick_events.
  - split_cases; intros [? He]; try discriminate He.
    eexists. split; reflexivity.
Qed.

Lemma cycle_events_shape_witness :
  exists row put,
    emitted (cycle (auto_input 2100) waiting_on_state (still_world 1040 true))
    = optional_event row ++ optional_event put ++ [Sleep 10]
    /\ (forall e, row = Some e -> is_row e = true)
    /\ (forall e, put = Some e -> is_put e = true).
Proof.
  apply (proj1 (cycle_events_shape (auto_input 2100) waiting_on_state
                  (still_world 1040 true) ltac:(simpl; lia))).
  eexists. reflexivity.
Defined.

Lemma switched_to_acc (evs : list Event) (acc : option bool) :
  fold_left
    (fun acc e => match e with HuePut state true => Some state | _ => acc end)
    evs acc
  = match switched_to evs with Some s => Some s | None => acc end.
Proof.
  unfold switched_to. revert acc.
  induction evs as [|e evs IH]; intros acc; [reflexivity|].
  cbn [fold_left]. rewrite IH. symmetry. rewrite IH.
  destruct (fold_left _ evs None); [reflexivity|].
  destruct e as [s [|]| |]; reflexivity.
Qed.

Lemma switched_to_app (a b : list Event) :
  switched_to (a ++ b)
  = match switched_to b with Some s => Some s | None => switched_to a end.
Proof.
  unfold switched_to at 1. rewrite fold_left_app.
  fold (switched_to a). apply switched_to_acc.
Qed.

(** An iteration leaves the socket state asked for by its successful
    request, or the old one, and touches the time of the last switch only
    after a successful request, with a reading of the clock. *)
Lemma cycle_socket (inp : CycleInput) (st : LoopState) (w : World) :
  cycle_defined inp ->
  exists st' w' evs,
    cycle inp st w = mkOutcome (Ok st') w' evs
    /\ clock w' = clock w
    /\ socket_on st' =
         match switched_to evs with Some s => s | None => socket_on st end
    /\ match switched_to evs with
       | Some _ => exists n, last_switch_time st' = Some (clock w n)
       | None => last_switch_time st' = last_switch_time st
       end.
Proof.
  intros (Hsleep & night & Hnight). unfold_cycle.
  rewrite Hnight. no_negative_sleep Hsleep.
  split_cases; do 3 eexists; (split; [reflexivity|]); simpl_state;
    (split; [reflexivity|]); cbn [switched_to fold_left];
    (split; [first [reflexivity | assumption | congruence]|]);
    first [reflexivity | assumption | eexists; reflexivity].
Qed.

(** X6. Over a run that raises nothing, the socket state the loop holds is
    the state asked for by the last request that succeeded, or the initial
    one when none did; and the time of the last switch is untouched unless
    a request succeeded, in which case it is a reading of the clock. *)
Theorem socket_follows_requests (inputs : list CycleInput) :
  forall (st : LoopState) (w : World),
    Forall cycle_defined inputs ->
    let o := run inputs st w in
    exists st',
      value o = Ok st'
      /\ socket_on st' =
           match switched_to (emitted o) with
           | Some s => s
           | None => socket_on st
           end
      /\ match switched_to (emitted o) with
         | Some _ => exists n, last_switch_time st' = Some (clock w n)
         | None => last_switch_time st' = last_switch_time st
         end.
Proof.
  induction inputs as [|inp rest IH]; intros st w Hall; cbv zeta.
  - exists st. repeat split.
  - inversion Hall as [|? ? Hdef Hrest]; subst.
    destruct (cycle_socket inp st w Hdef)
      as (st1 & w1 & evs & Hcycle & Hclock & Hsock & Hlast).
    destruct (run_cons inp rest st w _ _ _ Hcycle) as [Hval Hev].
    destruct (IH st1 w1 Hrest) as (st' & Hv & Hs & Hl). cbv zeta in Hv, Hs, Hl.
    exists st'. rewrite Hval, Hev, switched_to_app.
    split; [exact Hv|].
    destruct (switched_to (emitted (run rest st1 w1))) as [s|].
    + split; [exact Hs|]. destruct Hl as [n Hn]. exists n.
      now rewrite <- Hclock.
    + rewrite Hs, Hl. split; [exact Hsock | exact Hlast].
Qed.

Lemma socket_follows_requests_witness :
  let w := table_world [1000; 1000; 1010; 1020; 1030; 1030]%Q true in
  let o := run (map auto_input [2100; 2200; 2050; 2100]%Q) idle_state w in
  exists st',
    value o = Ok st'
    /\ socket_on st' =
         match switched_to (emitted o) with
         | Some s => s
         | None => socket_on idle_state
         end
    /\ match switched_to (emitted o) with
       | Some _ => exists n, last_switch_time st' = Some (clock w n)
       | None => last_switch_time st' = last_switch_time idle_state
       end.
Proof.
  apply (socket_follows_requests (map auto_input [2100; 2200; 2050; 2100]%Q)
           idle_state
           (table_world [1000; 1000; 1010; 1020; 1030; 1030]%Q true)).
  repeat (apply Forall_cons;
          [split; [simpl; lia | eexists; reflexivity]|]).
  apply Forall_nil.
Defined.

(* ================================================================== *)
(** * A window without room and the start of the loop *)
(* ================================================================== *)

Lemma cycle_row_no_room (inp : CycleInput) (st : LoopState) (w : World)
  (ts : dtime) (p avg med : Q) (s a : bool) :
  maxlen (power_buffer st) = 0 ->
  items (power_buffer st) = [] ->
  In (CsvRow ts p avg med s a) (emitted (cycle inp st w)) ->
  avg = p /\ med = p.
Proof.
  intros Hcap Hitems. unfold_cycle.
  split_cases; cbn [In]; intros Hin;
    repeat (destruct Hin as [Hin|Hin]; try discriminate Hin);
    try contradiction;
    injection Hin as <- <- <- <- <- <-;
    unfold avg_of, med_of, deque_append, len; rewrite Hcap, Hitems;
    split; reflexivity.
Qed.

Lemma deque_append_no_room (d : deque) (x : Q) :
  maxlen d = 0 -> items d = [] -> deque_append d x = d.
Proof.
  destruct d as [l m]. cbn [maxlen items]. intros -> ->. reflexivity.
Qed.

(** X7. When the window is shorter than the sampling interval
    (0 < window_s < sample_interval_s) the window is created with capacity
    0: it stays empty whatever is appended, and every row the loop logs
    carries the raw sample as its average and as its median. *)
Theorem window_without_room :
  (forall config hue_state,
      0 < window_s (sampling config) < sample_interval_s (sampling config) ->
      exists st0,
        startup config hue_state = Ok st0
        /\ power_buffer st0 = mkDeque [] 0)
  /\ (forall inputs st w,
      power_buffer st = mkDeque [] 0 ->
      Forall cycle_defined inputs ->
      let o := run inputs st w in
      (exists st', value o = Ok st' /\ power_buffer st' = mkDeque [] 0)
      /\ forall ts p avg med s a,
          In (CsvRow ts p avg med s a) (emitted o) -> avg = p /\ med = p).
Proof.
  split.
  - intros config hue_state [Hpos Hlt]. unfold startup.
    destruct (Z.eqb_spec (sample_interval_s (sampling config)) 0); [lia|].
    rewrite Z.div_small by lia. cbn. eexists. split; reflexivity.
  - intros inputs. induction inputs as [|inp rest IH];
      intros st w Hbuf Hall; cbv zeta.
    + split; [exists st; split; [reflexivity | exact Hbuf]|].
      intros ts p avg med s a [].
    + inversion Hall as [|? ? Hdef Hrest]; subst.
      destruct (cycle_window inp st w Hdef) as (st1 & Hval1 & Hbuf1).
      assert (Hbuf1' : power_buffer st1 = mkDeque [] 0).
      { rewrite Hbuf1, Hbuf. destruct (appended inp); reflexivity. }
      destruct (cycle inp st w) as [v w1 evs] eqn:Hcycle.
      cbn [value] in Hval1. subst v.
      destruct (run_cons inp rest st w _ _ _ Hcycle) as [Hval Hev].
      destruct (IH st1 w1 Hbuf1' Hrest) as [Hst Hrows]. cbv zeta in Hst, Hrows.
      rewrite Hval, Hev. split; [exact Hst|].
      intros ts p avg med s a Hin. apply in_app_or in Hin.
      destruct Hin as [Hin|Hin]; [|exact (Hrows _ _ _ _ _ _ Hin)].
      apply (cycle_row_no_room inp st w ts p avg med s a);
        [now rewrite Hbuf | now rewrite Hbuf |].
      rewrite Hcycle. exact Hin.
Qed.

Lemma window_without_room_witness :
  exists st0,
    startup (sample_config_with (mkSampling 5 10 30 30 300)
               (mkNightMode false "22:00" "06:00") (mkControl true None))
      None = Ok st0
    /\ power_buffer st0 = mkDeque [] 0.
Proof.
  apply (proj1 window_without_room
           (sample_config_with (mkSampling 5 10 30 30 300)
              (mkNightMode false "22:00" "06:00") (mkControl true None))
           None).
  simpl. lia.
Defined.

Lemma div_negative (a b : Z) :
  b <> 0 -> (a / b < 0 <-> (a < 0 /\ 0 < b) \/ (0 < a /\ b < 0)).
Proof.
  intros Hb. destruct (Z.lt_trichotomy b 0) as [Hneg|[H0|Hpos]]; [|lia|].
  - rewrite <- (Z.div_opp_opp a b) by lia.
    pose proof (Z.div_pos (- a) (- b)). pose proof (Z.div_lt_upper_bound (- a) (- b) 0).
    split; [|lia]. intros Hlt. right. split; [|lia].
    destruct (Z.le_gt_cases a 0); [|lia]. lia.
  - pose proof (Z.div_pos a b). pose proof (Z.div_lt_upper_bound a b 0).
    split; [|lia]. intros Hlt. left. split; [|lia].
    destruct (Z.lt_ge_cases a 0); [lia|]. lia.
Qed.



(* ================================================================== *)
(** * More on the thresholds *)
(* ================================================================== *)



(* ================================================================== *)
(** * More on the night window *)
(* ================================================================== *)

Lemma time_cmp_antisym (a b : dtime) :
  time_cmp b a = CompOpp (time_cmp a b).
Proof.
  unfold time_cmp.
  rewrite (Z.compare_antisym (hour a) (hour b)),
    (Z.compare_antisym (minute a) (minute b)),
    (Z.compare_antisym (second a) (second b)),
    (Z.compare_antisym (microsecond a) (microsecond b)).
  destruct (hour a ?= hour b), (minute a ?= minute b),
    (second a ?= second b), (microsecond a ?= microsecond b); reflexivity.
Qed.

Lemma time_cmp_refl (a : dtime) : time_cmp a a = Eq.
Proof. unfold time_cmp. now rewrite !Z.compare_refl. Qed.

Lemma time_ltb_negb_leb (a b : dtime) : time_ltb a b = negb (time_leb b a).
Proof.
  unfold time_ltb, time_leb. rewrite (time_cmp_antisym a b).
  destruct (time_cmp a b); reflexivity.
Qed.





(* ================================================================== *)
(** * The configuration store *)
(* ================================================================== *)

Lemma heap_get_app_old (h l : ConfigStore.heap) (r : nat) :
  (r < List.length h)%nat ->
  ConfigStore.heap_get (h ++ l) r = ConfigStore.heap_get h r.
Proof. intros H. unfold ConfigStore.heap_get. now apply app_nth1. Qed.

Lemma heap_get_alloc (h : ConfigStore.heap) (d : ConfigStore.dict) :
  ConfigStore.heap_get (h ++ [d]) (List.length h) = d.
Proof.
  unfold ConfigStore.heap_get. rewrite app_nth2 by lia.
  now rewrite Nat.sub_diag.
Qed.

Lemma heap_set_length (h : ConfigStore.heap) (r : nat) (d : ConfigStore.dict) :
  List.length (ConfigStore.heap_set h r d) = List.length h.
Proof.
  revert r. induction h as [|d' h IH]; intros [|r]; cbn; auto.
Qed.

Lemma heap_get_set_same (h : ConfigStore.heap) (r : nat)
  (d : ConfigStore.dict) :
  (r < List.length h)%nat ->
  ConfigStore.heap_get (ConfigStore.heap_set h r d) r = d.
Proof.
  unfold ConfigStore.heap_get. revert r.
  induction h as [|d' h IH]; intros [|r] Hr; cbn in *; try lia; auto.
  apply IH. lia.
Qed.

Lemma heap_get_set_other (h : ConfigStore.heap) (r r' : nat)
  (d : ConfigStore.dict) :
  r <> r' ->
  ConfigStore.heap_get (ConfigStore.heap_set h r d) r'
  = ConfigStore.heap_get h r'.
Proof.
  unfold ConfigStore.heap_get. revert r r'.
  induction h as [|d' h IH]; intros [|r] [|r'] Hne; cbn; auto;
    try congruence.
Qed.

Lemma dict_get_set_same (d : ConfigStore.dict) (k : string)
  (v : ConfigStore.pyval) :
  ConfigStore.dict_get (ConfigStore.dict_set d k v) k = Some v.
Proof.
  induction d as [|[k' v'] d IH]; cbn.
  - now rewrite String.eqb_refl.
  - destruct (String.eqb k k') eqn:E; cbn; rewrite E; auto.
Qed.

Lemma dict_get_set_other (d : ConfigStore.dict) (k k' : string)
  (v : ConfigStore.pyval) :
  k <> k' ->
  ConfigStore.dict_get (ConfigStore.dict_set d k v) k'
  = ConfigStore.dict_get d k'.
Proof.
  intros Hne. induction d as [|[k0 v0] d IH]; cbn.
  - destruct (String.eqb_spec k' k); congruence.
  - destruct (String.eqb_spec k k0) as [->|Hk]; cbn.
    + destruct (String.eqb_spec k' k0); congruence.
    + destruct (String.eqb_spec k' k0); auto.
Qed.

(** What [save_config] leaves, whatever it answers. *)
Lemma save_config_outcome (c : ConfigStore.pyval) (s : ConfigStore.store) :
  exists b s',
    ConfigStore.save_config c s = ConfigStore.Return b s'
    /\ ConfigStore.heap_of s' = ConfigStore.heap_of s
    /\ (b = false -> ConfigStore.live s' = ConfigStore.live s)
    /\ (b = true ->
        ConfigStore.live s' = c
        /\ (exists j, ConfigStore.config_file s' = ConfigStore.Text j
                      /\ ConfigStore.freeze (ConfigStore.heap_of s') c = Some j)
        /\ (ConfigStore.config_file s <> ConfigStore.Absent ->
            ConfigStore.backup_file s' = ConfigStore.config_file s))
    /\ (ConfigStore.config_writable s = false ->
        b = false /\ ConfigStore.config_file s' = ConfigStore.config_file s).
Proof.
  unfold ConfigStore.save_config.
  destruct s as [h lv cf bf cw bw]. cbn -[ConfigStore.freeze].
  destruct cf as [| | |j], bw, cw; cbn -[ConfigStore.freeze];
    try (destruct (ConfigStore.freeze h c) as [j'|] eqn:Hfreeze;
         cbn -[ConfigStore.freeze]);
    do 2 eexists; (split; [reflexivity|]); cbn -[ConfigStore.freeze];
    repeat split; try discriminate; try reflexivity; try congruence;
    try (eexists; split; [reflexivity | assumption]).
Qed.

Section StoreUpdates.

Import ConfigStore.

Variables (s : store) (r : nat).

Hypothesis loaded : live s = VDict r.
Hypothesis r_allocated : (r < List.length (heap_of s))%nat.

Let copied : heap := heap_of s ++ [heap_get (heap_of s) r].
Let copy_ref : nat := List.length (heap_of s).

(** [get_config] on a loaded dictionary: a new dictionary with the same
    entries. *)
Lemma get_config_loaded :
  get_config s = Return (VDict copy_ref) (with_heap copied s).
Proof. unfold get_config. rewrite loaded. reflexivity. Qed.

(** [update_config] with one update, once the copy is changed into [h]. *)
Lemma update_config_one (key : string) (v : pyval) (h : heap) :
  update_one (VDict copy_ref) key v copied = inr h ->
  update_config [(key, v)] s
  = save_config (VDict copy_ref) (with_heap h (with_heap copied s)).
Proof.
  intros Hone. unfold update_config. rewrite get_config_loaded.
  cbn [update_all heap_of with_heap]. rewrite Hone. reflexivity.
Qed.

(** X12. A dotted key whose first part names a dictionary of the loaded
    configuration is written into that very dictionary, which the copy made
    by [get_config] shares with the live configuration: after
    [update_config] the new value is read from the live configuration
    whether or not the file could be written; when it could not, the call
    answers [False], [config.json] is as before, and memory and disk
    disagree. *)
Theorem nested_update_reaches_live (key k1 k2 : string) (v : pyval)
  (r1 : nat) :
  split_on "."%char key = [k1; k2] ->
  dict_get (heap_get (heap_of s) r) k1 = Some (VDict r1) ->
  (r1 < List.length (heap_of s))%nat ->
  r1 <> r ->
  exists b s',
    update_config [(key, v)] s = Return b s'
    /\ lookup (heap_of s') (live s') [k1; k2] = Some v
    /\ lookup (heap_of s') (live s) [k1; k2] = Some v
    /\ (config_writable s = false ->
        b = false
        /\ live s' = live s
        /\ config_file s' = config_file s).
Proof.
  intros Hsplit Hk1 Hr1 Hne.
  set (h2 := heap_set copied r1 (dict_set (heap_get copied r1) k2 v)).
  assert (Hone : update_one (VDict copy_ref) key v copied = inr h2).
  { unfold update_one. rewrite Hsplit. cbn [removelast last descend].
    unfold copy_ref, copied. rewrite heap_get_alloc, Hk1. reflexivity. }
  rewrite (update_config_one key v h2 Hone).
  destruct (save_config_outcome (VDict copy_ref)
              (with_heap h2 (with_heap copied s)))
    as (b & s' & Hsave & Hheap & Hfalse & Htrue & Hro).
  cbn [heap_of live config_file config_writable with_heap] in *.
  exists b, s'. split; [exact Hsave|].
  assert (Hlen : List.length copied = S (List.length (heap_of s)))
    by (unfold copied; rewrite length_app; cbn; lia).
  assert (Hnested : forall top,
             top <> r1 ->
             dict_get (heap_get copied top) k1 = Some (VDict r1) ->
             lookup h2 (VDict top) [k1; k2] = Some v).
  { intros top Htop Hget. cbn [lookup]. unfold h2.
    rewrite heap_get_set_other by congruence. rewrite Hget.
    rewrite heap_get_set_same by lia. now rewrite dict_get_set_same. }
  assert (Hold : lookup h2 (VDict r) [k1; k2] = Some v).
  { apply Hnested; [congruence|]. unfold copied.
    now rewrite heap_get_app_old by lia. }
  assert (Hnew : lookup h2 (VDict copy_ref) [k1; k2] = Some v).
  { apply Hnested; [unfold copy_ref; lia|]. unfold copy_ref, copied.
    now rewrite heap_get_alloc. }
  rewrite Hheap. split.
  - destruct b; [destruct (Htrue eq_refl) as [-> _]; exact Hnew|].
    rewrite (Hfalse eq_refl), loaded. exact Hold.
  - rewrite loaded at 1. split; [exact Hold|].
    intros Hw. destruct (Hro Hw) as [-> Hfile].
    split; [reflexivity|]. split; [exact (Hfalse eq_refl) | exact Hfile].
Qed.

Lemma copied_length : List.length copied = S (List.length (heap_of s)).
Proof. unfold copied. rewrite length_app. cbn. lia. Qed.

Lemma lookup_one (h : heap) (top : nat) (k : string) :
  lookup h (VDict top) [k] = dict_get (heap_get h top) k.
Proof. cbn [lookup]. now destruct (dict_get (heap_get h top) k). Qed.

(** X13. A key without a dot is written into the copy that [get_config]
    made, never into the live dictionary.  When [save_config] succeeds the
    copy becomes the live configuration: the key reads the new value,
    [config.json] holds the text of the live configuration and
    [config.json.backup] the text the file had before.  When it fails the
    live configuration is as it was.  In both cases every other top-level
    key reads what it read before. *)
Theorem top_level_update (key k : string) (v : pyval) :
  split_on "."%char key = [k] ->
  exists b s',
    update_config [(key, v)] s = Return b s'
    /\ (b = true ->
        lookup (heap_of s') (live s') [k] = Some v
        /\ (exists j, config_file s' = Text j
                      /\ freeze (heap_of s') (live s') = Some j)
        /\ (config_file s <> Absent -> backup_file s' = config_file s))
    /\ (b = false ->
        live s' = live s
        /\ lookup (heap_of s') (live s') [k] = lookup (heap_of s) (live s) [k])
    /\ (forall k', k' <> k ->
        lookup (heap_of s') (live s') [k'] = lookup (heap_of s) (live s) [k']).
Proof.
  intros Hsplit.
  set (h2 := heap_set copied copy_ref
               (dict_set (heap_get copied copy_ref) k v)).
  assert (Hone : update_one (VDict copy_ref) key v copied = inr h2).
  { unfold update_one. rewrite Hsplit. reflexivity. }
  rewrite (update_config_one key v h2 Hone).
  destruct (save_config_outcome (VDict copy_ref)
              (with_heap h2 (with_heap copied s)))
    as (b & s' & Hsave & Hheap & Hfalse & Htrue & _).
  cbn [heap_of live config_file with_heap] in *.
  exists b, s'. split; [exact Hsave|].
  pose proof copied_length as Hlen.
  assert (Hcopy : heap_get h2 copy_ref
                  = dict_set (heap_get (heap_of s) r) k v).
  { unfold h2. rewrite heap_get_set_same by (unfold copy_ref; lia).
    unfold copy_ref, copied. now rewrite heap_get_alloc. }
  assert (Hlive : heap_get h2 r = heap_get (heap_of s) r).
  { unfold h2. rewrite heap_get_set_other by (unfold copy_ref; lia).
    unfold copied. now rewrite heap_get_app_old by lia. }
  rewrite Hheap in Htrue. rewrite Hheap, loaded. split; [|split].
  - intros ->. destruct (Htrue eq_refl) as (Hl & Hfile & Hbackup).
    rewrite Hl. split; [|split; [exact Hfile | exact Hbackup]].
    rewrite lookup_one, Hcopy. apply dict_get_set_same.
  - intros ->. rewrite (Hfalse eq_refl), loaded. split; [reflexivity|].
    now rewrite !lookup_one, Hlive.
  - intros k' Hk'. rewrite (lookup_one (heap_of s)).
    destruct b.
    + destruct (Htrue eq_refl) as (-> & _).
      rewrite lookup_one, Hcopy. apply dict_get_set_other. congruence.
    + rewrite (Hfalse eq_refl), loaded. now rewrite lookup_one, Hlive.
Qed.

(** X14. A dotted key whose first part is not a key of the configuration
    gets a new dictionary under that part, in the copy only: when
    [save_config] succeeds the path reads the new value in the live
    configuration; when it fails the live configuration still has no such
    key. *)
Theorem missing_part_is_created (key k1 k2 : string) (v : pyval) :
  split_on "."%char key = [k1; k2] ->
  dict_get (heap_get (heap_of s) r) k1 = None ->
  exists b s',
    update_config [(key, v)] s = Return b s'
    /\ (b = true -> lookup (heap_of s') (live s') [k1; k2] = Some v)
    /\ (b = false ->
        live s' = live s /\ lookup (heap_of s') (live s') [k1] = None).
Proof.
  intros Hsplit Hk1.
  set (new_ref := List.length copied).
  set (h1 := copied ++ [[]]).
  set (h2 := heap_set h1 copy_ref
               (dict_set (heap_get h1 copy_ref) k1 (VDict new_ref))).
  set (h3 := heap_set h2 new_ref (dict_set (heap_get h2 new_ref) k2 v)).
  pose proof copied_length as Hlen.
  assert (Hcopy1 : heap_get h1 copy_ref = heap_get (heap_of s) r).
  { unfold h1. rewrite heap_get_app_old by (unfold copy_ref; lia).
    unfold copy_ref, copied. now rewrite heap_get_alloc. }
  assert (Hone : update_one (VDict copy_ref) key v copied = inr h3).
  { unfold update_one. rewrite Hsplit. cbn [removelast last descend].
    replace (heap_get copied copy_ref) with (heap_get (heap_of s) r)
      by (unfold copy_ref, copied; now rewrite heap_get_alloc).
    rewrite Hk1. reflexivity. }
  rewrite (update_config_one key v h3 Hone).
  destruct (save_config_outcome (VDict copy_ref)
              (with_heap h3 (with_heap copied s)))
    as (b & s' & Hsave & Hheap & Hfalse & Htrue & _).
  cbn [heap_of live config_file with_heap] in *.
  exists b, s'. split; [exact Hsave|].
  assert (Hlen1 : List.length h1 = S (S (List.length (heap_of s))))
    by (unfold h1; rewrite length_app; cbn; lia).
  assert (Hlen2 : List.length h2 = List.length h1)
    by (unfold h2; apply heap_set_length).
  rewrite Hheap. split.
  - intros ->. destruct (Htrue eq_refl) as (-> & _).
    cbn [lookup]. unfold h3 at 1.
    rewrite heap_get_set_other by (unfold new_ref, copy_ref; lia).
    unfold h2 at 1. rewrite heap_get_set_same by (unfold copy_ref; lia).
    rewrite dict_get_set_same. unfold h3.
    rewrite heap_get_set_same by (unfold new_ref; lia).
    now rewrite dict_get_set_same.
  - intros ->. rewrite (Hfalse eq_refl), loaded. split; [reflexivity|].
    rewrite lookup_one. unfold h3.
    rewrite heap_get_set_other by (unfold new_ref; lia).
    unfold h2. rewrite heap_get_set_other by (unfold copy_ref; lia).
    unfold h1, copied. rewrite !heap_get_app_old by (rewrite ?length_app; lia).
    exact Hk1.
Qed.

(** X15. A dotted key whose first part names a value that is not a
    dictionary (a number, a string, a list) makes [update_config] raise
    [TypeError]: [save_config] is not reached, so neither file is touched
    and the live configuration is as it was. *)
Theorem update_through_scalar_raises (key k1 k2 : string) (rest : list string)
  (v u : pyval) :
  split_on "."%char key = k1 :: k2 :: rest ->
  dict_get (heap_get (heap_of s) r) k1 = Some u ->
  (forall r1, u <> VDict r1) ->
  exists s',
    update_config [(key, v)] s = Raise TypeError s'
    /\ live s' = live s
    /\ config_file s' = config_file s
    /\ backup_file s' = backup_file s.
Proof.
  intros Hsplit Hk1 Hu.
  assert (Hone : update_one (VDict copy_ref) key v copied = inl TypeError).
  { unfold update_one. rewrite Hsplit.
    change (removelast (k1 :: k2 :: rest))
      with (k1 :: removelast (k2 :: rest)).
    cbn [descend].
    replace (heap_get copied copy_ref) with (heap_get (heap_of s) r)
      by (unfold copy_ref, copied; now rewrite heap_get_alloc).
    rewrite Hk1.
    destruct (removelast (k2 :: rest)) as [|k ks]; cbn [descend];
      destruct u; try reflexivity; exfalso; eapply Hu; reflexivity. }
  unfold update_config. rewrite get_config_loaded.
  cbn [update_all heap_of with_heap]. rewrite Hone.
  eexists. split; [reflexivity|]. repeat split.
Qed.

End StoreUpdates.

Section StoreWitnesses.

Import ConfigStore.

Lemma sample_store_allocated :
  (1 < List.length (heap_of (sample_store false)))%nat.
Proof. simpl. lia. Qed.

Lemma nested_update_reaches_live_witness :
  exists b s',
    update_config [("control.auto_mode"%string, VBool false)]
      (sample_store false) = Return b s'
    /\ lookup (heap_of s') (live s') ["control"; "auto_mode"]%string
       = Some (VBool false)
    /\ lookup (heap_of s') (live (sample_store false))
         ["control"; "auto_mode"]%string = Some (VBool false)
    /\ (config_writable (sample_store false) = false ->
        b = false
        /\ live s' = live (sample_store false)
        /\ config_file s' = config_file (sample_store false)).
Proof.
  apply (nested_update_reaches_live (sample_store false) 1 eq_refl
           sample_store_allocated "control.auto_mode" "control" "auto_mode"
           (VBool false) 0).
  - reflexivity.
  - reflexivity.
  - simpl. lia.
  - discriminate.
Defined.

Lemma top_level_update_witness :
  exists b s',
    update_config [("version"%string, VNum 2)] (sample_store false)
      = Return b s'
    /\ (b = true ->
        lookup (heap_of s') (live s') ["version"%string] = Some (VNum 2)
        /\ (exists j, config_file s' = Text j
                      /\ freeze (heap_of s') (live s') = Some j)
        /\ (config_file (sample_store false) <> Absent ->
            backup_file s' = config_file (sample_store false)))
    /\ (b = false ->
        live s' = live (sample_store false)
        /\ lookup (heap_of s') (live s') ["version"%string]
           = lookup (heap_of (sample_store false)) (live (sample_store false))
               ["version"%string])
    /\ (forall k', k' <> "version"%string ->
        lookup (heap_of s') (live s') [k']
        = lookup (heap_of (sample_store false)) (live (sample_store false))
            [k']).
Proof.
  apply (top_level_update (sample_store false) 1 eq_refl
           sample_store_allocated "version" "version" (VNum 2)).
  reflexivity.
Defined.

Lemma missing_part_is_created_witness :
  exists b s',
    update_config [("hue.url"%string, VStr "http://bridge")]
      (sample_store true) = Return b s'
    /\ (b = true ->
        lookup (heap_of s') (live s') ["hue"; "url"]%string
        = Some (VStr "http://bridge"))
    /\ (b = false ->
        live s' = live (sample_store true)
        /\ lookup (heap_of s') (live s') ["hue"%string] = None).
Proof.
  apply (missing_part_is_created (sample_store true) 1 eq_refl
           sample_store_allocated "hue.url" "hue" "url"
           (VStr "http://bridge")).
  - reflexivity.
  - reflexivity.
Defined.

Lemma update_through_scalar_raises_witness :
  exists s',
    update_config [("version.minor"%string, VNum 3)] (sample_store true)
      = Raise TypeError s'
    /\ live s' = live (sample_store true)
    /\ config_file s' = config_file (sample_store true)
    /\ backup_file s' = backup_file (sample_store true).
Proof.
  apply (update_through_scalar_raises (sample_store true) 1 eq_refl
           "version.minor" "version" "minor" [] (VNum 3) (VNum 1)).
  - reflexivity.
  - reflexivity.
  - discriminate.
Defined.

(** An object of the text becomes a new dictionary, allocated last. *)
Lemma thaw_object (fields : list (string * json)) (h : heap) :
  exists d h1, thaw (JObj fields) h = (VDict (List.length h1), h1 ++ [d]).
Proof.
  simpl.
  match goal with
  | |- context [match ?t with pair _ _ => _ end] => destruct t as [d h1]
  end.
  unfold alloc. do 2 eexists. reflexivity.
Qed.

(** X16. The file is read once.  The first [get_config] of a process loads
    [config.json]; from then on [get_config] answers from memory with a new
    copy of the same entries, whatever has become of the file in the
    meantime, rewritten, garbled or deleted. *)
Theorem config_file_read_once (s0 : store) (fields : list (string * json)) :
  live s0 = VNone ->
  config_file s0 = Text (JObj fields) ->
  exists first s1 loaded_ref,
    get_config s0 = Return (VDict first) s1
    /\ live s1 = VDict loaded_ref
    /\ heap_get (heap_of s1) first = heap_get (heap_of s1) loaded_ref
    /\ forall f,
        exists second s2,
          get_config (with_config_file f s1) = Return (VDict second) s2
          /\ live s2 = VDict loaded_ref
          /\ config_file s2 = f
          /\ heap_get (heap_of s2) second = heap_get (heap_of s1) first.
Proof.
  intros Hlive Hfile. unfold get_config, load_config.
  rewrite Hlive, Hfile.
  destruct (thaw_object fields (heap_of s0)) as (d & h1 & ->).
  cbn [alloc copy live heap_of with_live with_heap].
  set (h2 := h1 ++ [d]).
  assert (Hloaded : heap_get h2 (List.length h1) = d)
    by (unfold h2; apply heap_get_alloc).
  assert (Hlen : List.length h2 = S (List.length h1))
    by (unfold h2; rewrite length_app; cbn; lia).
  do 3 eexists. split; [reflexivity|].
  cbn [live heap_of with_heap with_live].
  split; [reflexivity|]. split.
  - rewrite heap_get_alloc. rewrite heap_get_app_old by lia. reflexivity.
  - intros f. do 2 eexists.
    cbn [live heap_of config_file with_heap with_live with_config_file copy
         alloc].
    split; [reflexivity|].
    cbn [live heap_of config_file with_heap with_live with_config_file].
    split; [reflexivity|]. split; [reflexivity|].
    rewrite !heap_get_alloc. rewrite heap_get_app_old by lia. reflexivity.
Qed.

Lemma config_file_read_once_witness :
  exists first s1 loaded_ref,
    get_config (mkStore [] VNone
                  (Text (JObj [("version"%string, JNum 1)])) Absent true true)
    = Return (VDict first) s1
    /\ live s1 = VDict loaded_ref
    /\ heap_get (heap_of s1) first = heap_get (heap_of s1) loaded_ref
    /\ forall f,
        exists second s2,
          get_config (with_config_file f s1) = Return (VDict second) s2
          /\ live s2 = VDict loaded_ref
          /\ config_file s2 = f
          /\ heap_get (heap_of s2) second = heap_get (heap_of s1) first.
Proof.
  apply (config_file_read_once
           (mkStore [] VNone (Text (JObj [("version"%string, JNum 1)]))
              Absent true true)
           [("version"%string, JNum 1)]); reflexivity.
Defined.

End StoreWitnesses.

(* ================================================================== *)
(** * The state read from the bridge *)
(* ================================================================== *)

Section BridgeState.

Import ConfigStore Api.

Local Open Scope string_scope.

(** X17. [get_hue_state] answers something other than [None] exactly when
    the request was answered with a status outside 400..599 and a JSON
    object whose ["data"] is a list that starts with an object whose ["on"]
    is an object with a non-null ["on"]; it then answers that value, looking
    at the first element of ["data"] only.  Every other answer, and no
    answer at all, gives [None]. *)
Theorem get_hue_state_reads_first_item (r : http) (v : json) :
  v <> JNull ->
  (get_hue_state r = v <->
   exists status top obj rest on,
     r = Answer status (Some (JObj top))
     /\ ((400 <=? status) && (status <? 600))%Z = false
     /\ field top "data" = Some (JList (JObj obj :: rest))
     /\ field obj "on" = Some (JObj on)
     /\ field on "on" = Some v).
Proof.
  intros Hv. unfold get_hue_state, fetch, and_then. split.
  - destruct r as [|status [data|]]; [congruence| |];
      destruct (((400 <=? status) && (status <? 600))%Z) eqn:Hstatus;
      try congruence.
    destruct data as [| | | | |top]; cbn [get]; try congruence.
    destruct (field top "data") as [items|] eqn:Hdata.
    + destruct items as [| | |s|[|[| | | | |obj] rest]|]; cbn [first get];
        try congruence; try (destruct s; cbn; congruence).
      destruct (field obj "on") as [on|] eqn:Hon.
      * destruct on as [| | | | |on]; cbn [get]; try congruence.
        destruct (field on "on") as [state|] eqn:Hstate; [|congruence].
        intros ->. exists status, top, obj, rest, on. repeat split; assumption.
      * cbn. congruence.
    + cbn. congruence.
  - intros (status & top & obj & rest & on & -> & Hstatus & Hdata & Hon & Hstate).
    rewrite Hstatus. cbn [get]. rewrite Hdata. cbn [first get].
    rewrite Hon. cbn [get]. now rewrite Hstate.
Qed.

Lemma get_hue_state_reads_first_item_witness :
  get_hue_state
    (Answer 200%Z
       (Some (JObj [("errors", JList []);
                    ("data", JList [JObj [("id", JStr "plug");
                                          ("on", JObj [("on", JBool true)])];
                                    JObj [("on", JObj [("on", JBool false)])]])])))
  = JBool true.
Proof.
  apply (proj2 (get_hue_state_reads_first_item _ (JBool true)
                  ltac:(discriminate))).
  do 5 eexists. repeat split; reflexivity.
Defined.

End BridgeState.

(* ================================================================== *)
(** * What a request in automatic mode presupposes *)
(* ================================================================== *)

Ltac find_request Hin :=
  cbn [In] in Hin;
  repeat (destruct Hin as [Hin|Hin]; try discriminate Hin);
  try contradiction;
  inversion Hin; subst; clear Hin.



(* ================================================================== *)
(** * The timers hold clock readings *)
(* ================================================================== *)

(** X19. As long as the clock never answers 0.0, no debounce timer ever
    holds 0.0 over a run that raises nothing: a timer is only kept, unset, or
    set to a reading of the clock.  So [x or time.time()] never mistakes a
    set timer for an unset one. *)
Theorem timers_never_zero (inputs : list CycleInput) :
  forall (st : LoopState) (w : World),
    Forall cycle_defined inputs ->
    (forall n, ~ (clock w n == 0)%Q) ->
    timers_nonzero st ->
    exists st', value (run inputs st w) = Ok st' /\ timers_nonzero st'.
Proof.
  induction inputs as [|inp rest IH]; intros st w Hall Hclock Hst.
  - exists st. split; [reflexivity | exact Hst].
  - inversion Hall as [|? ? Hdef Hrest]; subst.
    destruct (cycle_socket inp st w Hdef)
      as (st1 & w1 & evs & Hcycle & Hsame & _).
    assert (Hst1 : timers_nonzero st1).
    { apply (timers_hold_clock_readings inp st st1 w Hclock Hst).
      now rewrite Hcycle. }
    assert (Hclock1 : forall n, ~ (clock w1 n == 0)%Q)
      by (intros n; rewrite Hsame; apply Hclock).
    destruct (IH st1 w1 Hrest Hclock1 Hst1) as (st' & Hval & Hst').
    destruct (run_cons inp rest st w _ _ _ Hcycle) as [Hv _].
    exists st'. split; [now rewrite Hv | exact Hst'].
Qed.

Lemma timers_never_zero_witness :
  exists st',
    value (run (map auto_input [2100; 2200; 1500]%Q) idle_state
             (still_world 1000 true)) = Ok st'
    /\ timers_nonzero st'.
Proof.
  apply (timers_never_zero (map auto_input [2100; 2200; 1500]%Q) idle_state
           (still_world 1000 true)).
  - repeat (apply Forall_cons;
            [split; [simpl; lia | eexists; reflexivity]|]).
    apply Forall_nil.
  - intros n. vm_compute. discriminate.
  - split; intros t Ht; discriminate Ht.
Defined.

(* ================================================================== *)
(** * The power read from the inverter *)
(* ================================================================== *)

Section InverterPower.

Import ConfigStore Api.

Local Open Scope string_scope.

Variable float_of_string : string -> option Q.


End InverterPower.

